(** * Documentation pipeline scripts of higher-kinded-j

    A shallow embedding of the two scripts under [.github/scripts]:

    - [update_versions.py], which maintains the [versions.json] registry
      of published documentation versions, and
    - [generate_sitemap.py], which walks the built book and writes
      [sitemap.xml].

    Python [str] values are [string]s whose characters are the code
    points below 256; Python [int]s are [Z]; a tuple of ints is a
    [list Z]; [None] is the [None] of an [option].  Exceptions that the
    scripts catch ([ValueError] of [int]) are [None] results. *)

From Stdlib Require Import String Ascii List ZArith Bool Arith Lia.
From Stdlib Require Import Permutation Sorted DecimalString.
Import ListNotations.

Open Scope list_scope.
Open Scope string_scope.

(** ** The Python [str] methods the scripts call *)

Module PyStr.

(** [c in chars] for a character [c]. *)
Fixpoint char_in (c : ascii) (chars : string) : bool :=
  match chars with
  | EmptyString => false
  | String a r => Ascii.eqb c a || char_in c r
  end.

(** [s.lstrip(chars)]: drops every leading character that is in
    [chars]. *)
Fixpoint lstrip (chars s : string) : string :=
  match s with
  | EmptyString => EmptyString
  | String a r => if char_in a chars then lstrip chars r else s
  end.

(** [s.rstrip(chars)]: drops every trailing character that is in
    [chars]. *)
Fixpoint rstrip (chars s : string) : string :=
  match s with
  | EmptyString => EmptyString
  | String a r =>
      match rstrip chars r with
      | EmptyString => if char_in a chars then EmptyString else String a EmptyString
      | r' => String a r'
      end
  end.

(** [s.startswith(p)]. *)
Fixpoint startswith (s p : string) {struct p} : bool :=
  match p with
  | EmptyString => true
  | String b p' =>
      match s with
      | EmptyString => false
      | String a s' => Ascii.eqb a b && startswith s' p'
      end
  end.

(** [s.endswith(suf)]: some tail of [s] is [suf]. *)
Fixpoint endswith (s suf : string) : bool :=
  if String.eqb s suf then true
  else match s with
       | EmptyString => false
       | String _ r => endswith r suf
       end.

(** [p in s] for strings: [p] starts at some position of [s]. *)
Fixpoint contains (s p : string) : bool :=
  if startswith s p then true
  else match s with
       | EmptyString => false
       | String _ r => contains r p
       end.

(** [s.split(sep)] for a separator of one character. *)
Fixpoint split (sep : ascii) (s : string) : list string :=
  match s with
  | EmptyString => [EmptyString]
  | String a r =>
      if Ascii.eqb a sep then EmptyString :: split sep r
      else match split sep r with
           | [] => [String a EmptyString]
           | h :: t => String a h :: t
           end
  end.

(** [sep.join(parts)]. *)
Definition join (sep : string) (parts : list string) : string :=
  String.concat sep parts.

(** [s.replace(old, new)] for an [old] of one character. *)
Fixpoint replace (old : ascii) (new s : string) : string :=
  match s with
  | EmptyString => EmptyString
  | String a r =>
      if Ascii.eqb a old then new ++ replace old new r
      else String a (replace old new r)
  end.

(** [a < b] on strings: code point order, a proper prefix first. *)
Definition lt (a b : string) : bool := String.ltb a b.

(** *** [int(s)]

    [int] skips white space on both sides, takes one optional sign and
    then decimal digits, where single underscores may stand between
    digits.  Anything else, no digit at all, or more than
    [max_str_digits] digits is a [ValueError], here [None]. *)

Definition is_space (c : ascii) : bool :=
  let n := nat_of_ascii c in
  (((9 <=? n) && (n <=? 13)) || (n =? 32) || (n =? 133) || (n =? 160))%nat.

Definition is_digit (c : ascii) : bool :=
  let n := nat_of_ascii c in ((48 <=? n) && (n <=? 57))%nat.

Definition digit_value (c : ascii) : Z := Z.of_nat (nat_of_ascii c) - 48.

Definition max_str_digits : nat := 4300.

Fixpoint skip_spaces (s : string) : string :=
  match s with
  | EmptyString => EmptyString
  | String a r => if is_space a then skip_spaces r else s
  end.

(** Scans the digits that follow a first digit: [acc] is the value and
    [cnt] the number of digits read so far.  Gives the value, the
    digit count and the text left over, or [None] at an underscore
    that no digit follows. *)
Fixpoint scan_digits (acc : Z) (cnt : nat) (s : string) : option (Z * nat * string) :=
  match s with
  | EmptyString => Some (acc, cnt, EmptyString)
  | String a r =>
      if is_digit a then scan_digits (10 * acc + digit_value a) (S cnt) r
      else if Ascii.eqb a "_" then
        match r with
        | String b r' =>
            if is_digit b then scan_digits (10 * acc + digit_value b) (S cnt) r'
            else None
        | EmptyString => None
        end
      else Some (acc, cnt, s)
  end.

Definition int_unsigned (s : string) : option Z :=
  match s with
  | String a r =>
      if is_digit a then
        match scan_digits (digit_value a) 1 r with
        | Some (n, cnt, rest) =>
            match skip_spaces rest with
            | EmptyString => if (cnt <=? max_str_digits)%nat then Some n else None
            | _ => None
            end
        | None => None
        end
      else None
  | EmptyString => None
  end.

Definition int (s : string) : option Z :=
  match skip_spaces s with
  | String "+" r => int_unsigned r
  | String "-" r => option_map Z.opp (int_unsigned r)
  | s' => int_unsigned s'
  end.

End PyStr.

(** ** Comparison of int tuples, as Python's [<] on tuples *)

Module PyTuple.

(** The first position where the tuples differ decides; when one is a
    prefix of the other, the shorter one is the smaller. *)
Fixpoint compare (a b : list Z) : comparison :=
  match a, b with
  | [], [] => Eq
  | [], _ :: _ => Lt
  | _ :: _, [] => Gt
  | x :: a', y :: b' =>
      match Z.compare x y with
      | Eq => compare a' b'
      | c => c
      end
  end.

Definition lt (a b : list Z) : bool :=
  match compare a b with Lt => true | _ => false end.

Definition le (a b : list Z) : bool := negb (lt b a).

End PyTuple.

(** ** [update_versions.py] *)

(** [[f(p) for p in parts]] where [f] may raise: the first failure
    aborts the whole comprehension. *)
Fixpoint map_or_raise {A B : Type} (f : A -> option B) (l : list A) : option (list B) :=
  match l with
  | [] => Some []
  | x :: r =>
      match f x with
      | None => None
      | Some y =>
          match map_or_raise f r with
          | None => None
          | Some ys => Some (y :: ys)
          end
      end
  end.

(** The [try] body of [parse_version]:
    [tuple(int(p) for p in version_string.lstrip('v').split('.')[:3])]. *)
Definition parse_version_try (version_string : string) : option (list Z) :=
  let parts := PyStr.split "." (PyStr.lstrip "v" version_string) in
  map_or_raise PyStr.int (firstn 3 parts).

Definition parse_version (version_string : string) : list Z :=
  match parse_version_try version_string with
  | Some t => t
  | None => [0; 0; 0]%Z
  end.

Module Latest.
(** The [latest] object of the registry. *)
Record t : Type := Build {
  path : string;
  label : string;
  version : string;
  updated : option string
}.
End Latest.

Module Release.
(** One record of the [versions] list. *)
Record t : Type := Build {
  version : string;
  path : string;
  label : string;
  releaseDate : string
}.
End Release.

(** The document kept in [versions.json]. *)
Record Registry : Type := MkRegistry {
  latest : Latest.t;
  stable : option string;
  versions : list Release.t
}.

(** The structure [load_versions] returns when there is no file. *)
Definition default_registry : Registry :=
  {| latest := Latest.Build "/latest/" "Latest (Snapshot)" "main" None;
     stable := None;
     versions := [] |}.

(** [versions_file] is the document in the file, [None] when the file
    does not exist. *)
Definition load_versions (versions_file : option Registry) : Registry :=
  match versions_file with
  | Some data => data
  | None => default_registry
  end.

(** [l.sort(key=key, reverse=True)] for keys that are int tuples: the
    sort is stable and runs as if each comparison were reversed, so an
    element is put behind every element of a larger key and before the
    first one whose key is not larger. *)
Section ListSort.
Context {A : Type} (key : A -> list Z).

Fixpoint insert_reverse (x : A) (l : list A) : list A :=
  match l with
  | [] => [x]
  | y :: r =>
      if PyTuple.lt (key x) (key y) then y :: insert_reverse x r
      else x :: y :: r
  end.

Fixpoint sort_reverse (l : list A) : list A :=
  match l with
  | [] => []
  | x :: r => insert_reverse x (sort_reverse r)
  end.
End ListSort.

(** The sort key of line 80: [lambda v: parse_version(v["version"])]. *)
Definition sort_key (v : Release.t) : list Z := parse_version (Release.version v).

(** [str(len(l))]. *)
Definition str_of_nat (n : nat) : string := NilEmpty.string_of_uint (Nat.to_uint n).

(** [str(x)] for an optional string, as an f-string prints it. *)
Definition str_of_option (x : option string) : string :=
  match x with
  | Some s => s
  | None => "None"
  end.

(** The record of lines 66 to 71. *)
Definition version_entry (version version_label current_time : string) : Release.t :=
  Release.Build version ("/" ++ version ++ "/") version_label current_time.

(** Line 74: [[v for v in l if v["version"] != version]]. *)
Definition without_version (version : string) (l : list Release.t) : list Release.t :=
  filter (fun v => negb (String.eqb (Release.version v) version)) l.

(** The mutation of [update_versions_file] on the loaded document
    (lines 60 to 84); [current_time] is the time stamp of line 58. *)
Definition update_data (data : Registry) (version version_label current_time : string) : Registry :=
  if String.eqb version "latest" then
    {| latest := Latest.Build (Latest.path (latest data)) version_label
                   (Latest.version (latest data)) (Some current_time);
       stable := stable data;
       versions := versions data |}
  else
    let kept := without_version version (versions data) in
    let sorted :=
      sort_reverse sort_key
        ((kept ++ [version_entry version version_label current_time])%list) in
    {| latest := latest data;
       stable := match sorted with
                 | first :: _ => Some (Release.version first)
                 | [] => stable data
                 end;
       versions := sorted |}.

(** [update_versions_file]: the document written back to
    [versions.json] and the lines printed. *)
Definition update_versions_file (versions_file : option Registry)
    (version version_label current_time : string) : Registry * list string :=
  let data := update_data (load_versions versions_file) version version_label current_time in
  (data,
   [ "Updated versions.json with version: " ++ version;
     "Current stable version: " ++ str_of_option (stable data);
     "Total release versions: " ++ str_of_nat (List.length (versions data)) ]).

(** ** [generate_sitemap.py] *)

(** A directory: its name, the names of its entries that are not
    directories, and its subdirectories, in the order the scan lists
    them. *)
#[warning="-register-all"]
Inductive tree : Type :=
| Dir (name : string) (files : list string) (subdirs : list tree).

Definition dir_name (t : tree) : string :=
  match t with Dir name _ _ => name end.

(** [os.walk(start_dir)], top down.  A visited directory is named by the
    directory names that lead to it from [start_dir]. *)
Fixpoint os_walk (root : list string) (t : tree) : list (list string * list string * list string) :=
  match t with
  | Dir _ files subdirs =>
      (root, map dir_name subdirs, files)
        :: flat_map (fun d => os_walk ((root ++ [dir_name d])%list) d) subdirs
  end.

Definition os_path_sep : ascii := "/".

(** [os.path.relpath(os.path.join(root, file), start_dir)] for a [root]
    that [os.walk(start_dir)] yields: the names below [start_dir],
    joined by the separator. *)
Definition relpath (root : list string) (file : string) : string :=
  PyStr.join (String os_path_sep EmptyString) ((root ++ [file])%list).

Definition excluded_files : list string := ["404.html"; "print.html"].

(** [x in l] for a list of strings. *)
Definition str_in (x : string) (l : list string) : bool := existsb (String.eqb x) l.

(** Line 14: the base URL with the slash appended when it is missing. *)
Definition normalize_base_url (base_url : string) : string :=
  if negb (PyStr.endswith base_url "/") then base_url ++ "/" else base_url.

(** Lines 29 to 38, for one file; [base_url] is already normalized. *)
Definition file_url (base_url : string) (root : list string) (file : string) : string :=
  let relative_path := relpath root file in
  let url_path_parts :=
    PyStr.split "/" (PyStr.replace os_path_sep "/" relative_path) in
  base_url ++ PyStr.join "/" url_path_parts.

(** The test of line 24. *)
Definition wanted (file : string) : bool :=
  PyStr.endswith file ".html" && negb (str_in file excluded_files).

(** The inner loop of lines 23 to 43 for one step of the walk: the URLs
    it appends. *)
Definition visit (base_url : string) (step : list string * list string * list string) : list string :=
  match step with
  | (root, _, files) =>
      flat_map (fun file => if wanted file then [file_url base_url root file] else [])
        files
  end.

(** The loop of lines 22 to 43: the list [urls]. *)
Definition collect_urls (base_url : string) (start_dir : tree) : list string :=
  flat_map (visit base_url) (os_walk [] start_dir).

(** [sorted(urls)]: a stable sort by [<] on strings. *)
Fixpoint insert_sorted (x : string) (l : list string) : list string :=
  match l with
  | [] => [x]
  | y :: r => if PyStr.lt y x then y :: insert_sorted x r else x :: y :: r
  end.

Fixpoint sorted (l : list string) : list string :=
  match l with
  | [] => []
  | x :: r => insert_sorted x (sorted r)
  end.

Definition key_pages : list string :=
  [ "effect/ch_intro.html"; "effect/effect_path_overview.html";
    "optics/optics_intro.html"; "optics/focus_dsl.html";
    "effect/focus_integration.html" ].

Definition core_pages : list string :=
  [ "core-concepts.html"; "usage-guide.html"; "hkt_introduction.html";
    "tutorials_intro.html"; "spring_boot_integration.html" ].

(** [any(p in url for p in fragments)]. *)
Definition any_in (url : string) (fragments : list string) : bool :=
  existsb (fun p => PyStr.contains url p) fragments.

(** The [if]/[elif] chain of lines 59 to 77: the text written between
    the [priority] tags. *)
Definition priority (url base_url : string) : string :=
  if PyStr.endswith url "index.html" || PyStr.endswith url "home.html"
     || String.eqb url (PyStr.rstrip "/" base_url)
  then "1.0"
  else if any_in url key_pages then "0.9"
  else if any_in url core_pages then "0.8"
  else if PyStr.contains url "/effect/" || PyStr.contains url "/optics/" then "0.7"
  else if PyStr.contains url "/tutorials/" || PyStr.contains url "/hkts/" then "0.6"
  else "0.5".

(** [html.escape(s)], with [quote=True]. *)
Definition html_escape (s : string) : string :=
  let s := PyStr.replace "&" "&amp;" s in
  let s := PyStr.replace "<" "&lt;" s in
  let s := PyStr.replace ">" "&gt;" s in
  let s := PyStr.replace (ascii_of_nat 34) "&quot;" s in
  PyStr.replace "'" "&#x27;" s.

Definition nl : string := String (ascii_of_nat 10) EmptyString.
Definition dq : string := String (ascii_of_nat 34) EmptyString.

(** What one turn of the loop of lines 52 to 78 adds to the document. *)
Definition url_element (base_url today url : string) : string :=
  "  <url>" ++ nl
  ++ "    <loc>" ++ html_escape url ++ "</loc>" ++ nl
  ++ "    <lastmod>" ++ today ++ "</lastmod>" ++ nl
  ++ "    <changefreq>weekly</changefreq>" ++ nl
  ++ "    <priority>" ++ priority url base_url ++ "</priority>" ++ nl
  ++ "  </url>" ++ nl.

Definition sitemap_header : string :=
  "<?xml version=" ++ dq ++ "1.0" ++ dq ++ " encoding=" ++ dq ++ "UTF-8" ++ dq ++ "?>" ++ nl
  ++ "<urlset xmlns=" ++ dq ++ "http://www.sitemaps.org/schemas/sitemap/0.9" ++ dq ++ ">" ++ nl.

(** [sitemap_content] after line 80, from the list [urls]. *)
Definition sitemap_content (base_url today : string) (urls : list string) : string :=
  fold_left (fun content url => content ++ url_element base_url today url)
    (sorted urls) sitemap_header
  ++ "</urlset>" ++ nl.

(** [os.path.dirname(p)]: the text up to the last slash, without the
    slashes that end it unless it is made of slashes only. *)
Fixpoint dirname_head (p : string) : string :=
  match p with
  | EmptyString => EmptyString
  | String a r => if PyStr.char_in "/" p then String a (dirname_head r) else EmptyString
  end.

Definition dirname (p : string) : string :=
  let head := dirname_head p in
  match PyStr.rstrip "/" head with
  | EmptyString => head
  | stripped => stripped
  end.

(** [os.path.join(a, b)] for a [b] that does not start with a slash. *)
Definition path_join (a b : string) : string :=
  if String.eqb a "" || PyStr.endswith a "/" then a ++ b else a ++ "/" ++ b.

(** What a run does to the outside, in the order it happens. *)
Inductive event : Type :=
| Print (line : string)
| MakeDirs (dir : string)
| WriteFile (file content : string).

(** How a call ends: it returns, or an exception leaves it. *)
Inductive outcome : Type :=
| Returned
| Raised (exception : string).

(** [generate_sitemap]: [start_dir] is the tree [os.walk] finds and
    [today] the date of line 50.  For an [output_file] without a
    directory part [os.path.dirname] gives the empty string, and
    [os.makedirs("", exist_ok=True)] of line 83 raises
    [FileNotFoundError] before anything is written or printed. *)
Definition generate_sitemap (start_dir : tree) (base_url output_file today : string) : list event * outcome :=
  let base_url := normalize_base_url base_url in
  let urls := collect_urls base_url start_dir in
  if String.eqb (dirname output_file) "" then ([], Raised "FileNotFoundError")
  else
    ([ MakeDirs (dirname output_file);
       WriteFile output_file (sitemap_content base_url today urls);
       Print ("Sitemap generated at " ++ output_file ++ " with "
              ++ str_of_nat (List.length urls) ++ " URLs.") ],
     Returned).

(** What the main block asks of the operating system.  The calls answer
    without raising: a file system that refuses to list or to write is
    outside this model.  [os.path.isdir("")] is false on every
    system. *)
Record OS : Type := MkOS {
  environ : string -> option string;
  isdir : string -> bool;
  isdir_empty : isdir "" = false;
  path_exists : string -> bool;
  listdir : string -> list string;
  getcwd : string;
  abspath : string -> string;
  walk_from : string -> tree;
  date_today : string
}.

(** [os.environ.get(name, default)]. *)
Definition environ_get (os : OS) (name default : string) : string :=
  match environ os name with
  | Some v => v
  | None => default
  end.

Definition listing (prefix : string) (items : list string) : list event :=
  map (fun item => Print ("  - " ++ prefix ++ item)) items.

(** The main block of [generate_sitemap.py]: the events of the run and
    the exit status of the process, which is 1 after [exit(1)] and when
    an exception leaves [generate_sitemap], and 0 when the block runs to
    its end. *)
Definition main (os : OS) : list event * Z :=
  let book_output_directory := environ_get os "MDBOOK_OUTPUT_DIR" "hkj-book/book" in
  let site_base_url := environ_get os "MDBOOK_SITE_URL" "https://higher-kinded-j.github.io/" in
  let sitemap_output_path := path_join book_output_directory "sitemap.xml" in
  let banner :=
    [ Print "Starting sitemap generation...";
      Print ("Output directory for HTML files: " ++ abspath os book_output_directory);
      Print ("Site base URL: " ++ site_base_url);
      Print ("Sitemap will be saved to: " ++ abspath os sitemap_output_path) ] in
  if negb (isdir os book_output_directory) then
    ((banner
      ++ [ Print ("Error: MDBOOK_OUTPUT_DIR '" ++ book_output_directory
                  ++ "' does not exist or is not a directory.");
           Print ("Current PWD: " ++ getcwd os);
           Print "Listing current directory contents:" ]
      ++ listing "" (listdir os ".")
      ++ (if path_exists os "hkj-book"
          then Print "Listing hkj-book directory contents:"
                 :: listing "hkj-book/" (listdir os "hkj-book")
          else []))%list,
     1%Z)
  else
    let run :=
      generate_sitemap (walk_from os book_output_directory) site_base_url
        sitemap_output_path (date_today os) in
    ((banner ++ fst run)%list,
     match snd run with
     | Returned => 0%Z
     | Raised _ => 1%Z
     end).

(** ** Notions the properties are stated with *)

(** The registry invariant on [stable]: the version of the first
    release record, [None] when there is none. *)
Definition stable_invariant (data : Registry) : Prop :=
  stable data = match versions data with
                | [] => None
                | first :: _ => Some (Release.version first)
                end.

(** The registry invariant on [versions]: no version occurs twice. *)
Definition unique_versions (data : Registry) : Prop :=
  NoDup (map Release.version (versions data)).

(** A property of the document in the file, when there is one. *)
Definition on_file (P : Registry -> Prop) (versions_file : option Registry) : Prop :=
  match versions_file with
  | Some data => P data
  | None => True
  end.

(** Runs of the updater one after the other on the same file; a run is
    the version, the label and the time stamp. *)
Fixpoint run_all (versions_file : option Registry) (runs : list (string * string * string)) : option Registry :=
  match runs with
  | [] => versions_file
  | (version, version_label, current_time) :: rest =>
      run_all
        (Some (fst (update_versions_file versions_file version version_label current_time)))
        rest
  end.

(** The records with a given version. *)
Definition records_of (version : string) (l : list Release.t) : list Release.t :=
  filter (fun v => String.eqb (Release.version v) version) l.

(** The key of [a] is not smaller than that of [b]. *)
Definition key_ge {A : Type} (key : A -> list Z) (a b : A) : Prop :=
  PyTuple.le (key b) (key a) = true.

(** Descending order of the sort keys: no record has a smaller key than
    a record behind it. *)
Definition descending (l : list Release.t) : Prop :=
  StronglySorted (key_ge sort_key) l.

(** The record has the sort key [k]. *)
Definition has_key (k : list Z) (r : Release.t) : bool :=
  match PyTuple.compare (sort_key r) k with
  | Eq => true
  | _ => false
  end.

(** [a] stands before [b] in [l]. *)
Definition before {A : Type} (a b : A) (l : list A) : Prop :=
  exists l1 l2 l3, l = (l1 ++ a :: l2 ++ b :: l3)%list.

(** One leading [v] dropped, if there is one. *)
Definition strip_one_v (s : string) : string :=
  match s with
  | String a r => if Ascii.eqb a "v" then r else s
  | EmptyString => s
  end.

(** Version parsing as the specification words it: one leading [v] is
    dropped, the first three components are parsed, and the result is a
    triple, [(0,0,0)] when a component is missing or is no integer. *)
Definition parse_version_as_specified (version_string : string) : list Z :=
  match map_or_raise PyStr.int (firstn 3 (PyStr.split "." (strip_one_v version_string))) with
  | Some [major; minor; patch] => [major; minor; patch]
  | _ => [0; 0; 0]%Z
  end.

(** [n] times the letter [v]. *)
Fixpoint vs (n : nat) : string :=
  match n with
  | O => EmptyString
  | S k => String "v" (vs k)
  end.

(** [c] does not occur in [s]. *)
Definition free_of (c : ascii) (s : string) : Prop :=
  PyStr.char_in c s = false.

(** How a version string reads: [n] times [v], then the components
    [parts] with dots between them. *)
Definition version_shape (n : nat) (parts : list string) (s : string) : Prop :=
  parts <> []
  /\ Forall (free_of ".") parts
  /\ PyStr.startswith (PyStr.join "." parts) "v" = false
  /\ s = vs n ++ PyStr.join "." parts.

(** A component is an integer literal, or it is not. *)
Definition parses_as (p : string) (z : Z) : Prop := PyStr.int p = Some z.
Definition no_int (p : string) : Prop := PyStr.int p = None.

(** The decimal numeral of a digit list, without sign. *)
Fixpoint numeral (digits : list nat) : string :=
  match digits with
  | [] => EmptyString
  | d :: r => String (ascii_of_nat (48 + d)) (numeral r)
  end.

Definition numeral_value (digits : list nat) : Z :=
  fold_left (fun acc d => (10 * acc + Z.of_nat d)%Z) digits 0%Z.

(** Digit lists that [int] accepts as numerals. *)
Definition digits_ok (digits : list nat) : Prop :=
  digits <> []
  /\ Forall (fun d => (d < 10)%nat) digits
  /\ (List.length digits <= PyStr.max_str_digits)%nat.

(** The files of a tree with the directories that lead to them. *)
Fixpoint tree_files (root : list string) (t : tree) : list (list string * string) :=
  match t with
  | Dir _ files subdirs =>
      (map (pair root) files
       ++ flat_map (fun d => tree_files ((root ++ [dir_name d])%list) d) subdirs)%list
  end.

(** The URL of a file of the tree, and whether the walk wants it. *)
Definition page (base_url : string) (rf : list string * string) : string :=
  file_url base_url (fst rf) (snd rf).

Definition keep (rf : list string * string) : bool := wanted (snd rf).

(** Trees as a file system has them: names hold no slash, and neither
    two files nor two subdirectories of a directory share a name. *)
Fixpoint well_formed (t : tree) : Prop :=
  match t with
  | Dir _ files subdirs =>
      Forall (free_of "/") files
      /\ NoDup files
      /\ Forall (fun d => free_of "/" (dir_name d)) subdirs
      /\ NoDup (map dir_name subdirs)
      /\ fold_right (fun d ok => well_formed d /\ ok) True subdirs
  end.

(** The priority rules as a table, first match first. *)
Definition priority_rules (base_url : string) : list ((string -> bool) * string) :=
  [ (fun url => PyStr.endswith url "index.html" || PyStr.endswith url "home.html"
                || String.eqb url (PyStr.rstrip "/" base_url), "1.0");
    (fun url => any_in url key_pages, "0.9");
    (fun url => any_in url core_pages, "0.8");
    (fun url => PyStr.contains url "/effect/" || PyStr.contains url "/optics/", "0.7");
    (fun url => PyStr.contains url "/tutorials/" || PyStr.contains url "/hkts/", "0.6") ].

Fixpoint first_match (rules : list ((string -> bool) * string)) (default url : string) : string :=
  match rules with
  | [] => default
  | (test, p) :: rest => if test url then p else first_match rest default url
  end.

(** The tests of [priority_rules] say nothing of [url]. *)
Definition no_rule_matches (base_url url : string) : Prop :=
  Forall (fun rule => fst rule url = false) (priority_rules base_url).

(** A string that ends in one slash and not in two. *)
Definition one_trailing_slash (s : string) : Prop :=
  PyStr.endswith s "/" = true /\ PyStr.endswith s "//" = false.

Definition writes (events : list event) : list (string * string) :=
  flat_map (fun e => match e with WriteFile f c => [(f, c)] | _ => [] end) events.

(** ** Further notions *)

(** The element has the sort key [k]. *)
Definition key_is {A : Type} (key : A -> list Z) (k : list Z) (a : A) : bool :=
  match PyTuple.compare (key a) k with
  | Eq => true
  | _ => false
  end.

(** What every document that the updater wrote has: the fixed fields of
    [latest], records whose path is made of their version and whose
    version is not the token of the snapshot mode, in descending
    order. *)
Definition record_ok (r : Release.t) : Prop :=
  Release.path r = "/" ++ Release.version r ++ "/"
  /\ Release.version r <> "latest".

Definition written_by_updater (data : Registry) : Prop :=
  Latest.path (latest data) = "/latest/"
  /\ Latest.version (latest data) = "main"
  /\ Forall record_ok (versions data)
  /\ descending (versions data).

(** Ascending order of strings: nothing is smaller than what stands
    before it. *)
Definition ascending (l : list string) : Prop :=
  StronglySorted (fun a b => PyStr.lt b a = false) l.

(** The characters that [html.escape] replaces. *)
Definition markup_chars : string :=
  String "&" (String "<" (String ">" (String (ascii_of_nat 34) (String "'" EmptyString)))).

(** No character of [chars] occurs in [s]. *)
Fixpoint none_of (chars s : string) : bool :=
  match s with
  | EmptyString => true
  | String a r => negb (PyStr.char_in a chars) && none_of chars r
  end.

(** The [MakeDirs] events of a run. *)
Definition made_dirs (events : list event) : list string :=
  flat_map (fun e => match e with MakeDirs d => [d] | _ => [] end) events.


(** * Properties *)

(** ** Strings *)

Module StrFacts.

Lemma app_nil_r (s : string) : s ++ "" = s.
Proof. induction s as [|a s IH]; simpl; [reflexivity | now rewrite IH]. Qed.

Lemma app_assoc (a b c : string) : (a ++ b) ++ c = a ++ (b ++ c).
Proof. induction a as [|x a IH]; simpl; [reflexivity | now rewrite IH]. Qed.

Lemma length_app (a b : string) :
  String.length (a ++ b) = (String.length a + String.length b)%nat.
Proof. induction a as [|x a IH]; simpl; [reflexivity | now rewrite IH]. Qed.

Lemma chars_app (a b : string) :
  list_ascii_of_string (a ++ b)
  = (list_ascii_of_string a ++ list_ascii_of_string b)%list.
Proof. induction a as [|x a IH]; simpl; [reflexivity | now rewrite IH]. Qed.

Lemma chars_inj (a b : string) :
  list_ascii_of_string a = list_ascii_of_string b -> a = b.
Proof.
  intros H.
  rewrite <- (string_of_list_ascii_of_string a), <- (string_of_list_ascii_of_string b).
  now rewrite H.
Qed.

Lemma app_inv_tail (a b c : string) : a ++ c = b ++ c -> a = b.
Proof.
  intros H. apply chars_inj.
  apply (f_equal list_ascii_of_string) in H.
  rewrite !chars_app in H.
  now apply List.app_inv_tail in H.
Qed.

Lemma app_inv_head (a b c : string) : a ++ b = a ++ c -> b = c.
Proof.
  induction a as [|x a IH]; simpl; intros H; [exact H | ].
  injection H as H. now apply IH.
Qed.

(** Two ways to cut the same string: the shorter tail is a tail of
    the longer one. *)
Lemma app_eq_app_tail (p q a b : string) :
  p ++ a = q ++ b -> (String.length b <= String.length a)%nat ->
  exists r, a = r ++ b.
Proof.
  revert q. induction p as [|x p IH]; intros q H Hlen; simpl in H.
  - exists q. exact H.
  - destruct q as [|y q]; simpl in H.
    + exfalso. apply (f_equal String.length) in H. simpl in H.
      rewrite length_app in H. lia.
    + injection H as _ H. now apply (IH q).
Qed.

Lemma endswith_unfold (s suf : string) :
  PyStr.endswith s suf
  = if String.eqb s suf then true
    else match s with
         | EmptyString => false
         | String _ r => PyStr.endswith r suf
         end.
Proof. destruct s; reflexivity. Qed.

Lemma endswith_app (p suf : string) : PyStr.endswith (p ++ suf) suf = true.
Proof.
  induction p as [|x p IH]; simpl append.
  - rewrite endswith_unfold, String.eqb_refl. reflexivity.
  - rewrite endswith_unfold. destruct (String.eqb _ _); [reflexivity | exact IH].
Qed.

Lemma endswith_inv (s suf : string) :
  PyStr.endswith s suf = true -> exists p, s = p ++ suf.
Proof.
  induction s as [|x s IH]; intros H; rewrite endswith_unfold in H.
  - destruct (String.eqb_spec "" suf) as [E|E]; [ | discriminate].
    exists "". exact E.
  - destruct (String.eqb_spec (String x s) suf) as [E|E].
    + exists "". exact E.
    + destruct (IH H) as [p Hp]. exists (String x p). simpl. now rewrite <- Hp.
Qed.

Lemma endswith_iff (s suf : string) :
  PyStr.endswith s suf = true <-> exists p, s = p ++ suf.
Proof.
  split; [apply endswith_inv | ].
  intros [p ->]. apply endswith_app.
Qed.

(** Of two endings of a string the shorter one ends the longer one. *)
Lemma endswith_both (s a b : string) :
  PyStr.endswith s a = true -> PyStr.endswith s b = true ->
  (String.length b <= String.length a)%nat ->
  PyStr.endswith a b = true.
Proof.
  intros Ha Hb Hlen.
  apply endswith_inv in Ha. destruct Ha as [p Hp].
  apply endswith_inv in Hb. destruct Hb as [q Hq].
  rewrite Hp in Hq.
  destruct (app_eq_app_tail _ _ _ _ Hq Hlen) as [r ->].
  apply endswith_app.
Qed.

Lemma endswith_app_r (p s suf : string) :
  PyStr.endswith s suf = true -> PyStr.endswith (p ++ s) suf = true.
Proof.
  intros H. apply endswith_inv in H. destruct H as [q ->].
  rewrite <- app_assoc. apply endswith_app.
Qed.

Lemma rstrip_length (chars s : string) :
  (String.length (PyStr.rstrip chars s) <= String.length s)%nat.
Proof.
  induction s as [|x s IH]; simpl; [lia | ].
  destruct (PyStr.rstrip chars s); [destruct (PyStr.char_in x chars) | ]; simpl in *; lia.
Qed.

Lemma char_in_app (c : ascii) (a b : string) :
  PyStr.char_in c (a ++ b) = PyStr.char_in c a || PyStr.char_in c b.
Proof.
  induction a as [|x a IH]; simpl; [reflexivity | ].
  now rewrite IH, orb_assoc.
Qed.

End StrFacts.

(** ** [split], [join] and [replace] *)

Module SplitJoin.

Lemma split_not_nil (sep : ascii) (s : string) : PyStr.split sep s <> [].
Proof.
  destruct s as [|a r]; simpl; [discriminate | ].
  destruct (Ascii.eqb a sep); [discriminate | ].
  destruct (PyStr.split sep r); discriminate.
Qed.

Lemma join_cons_char (sep : string) (a : ascii) (h : string) (t : list string) :
  PyStr.join sep (String a h :: t) = String a (PyStr.join sep (h :: t)).
Proof. destruct t; reflexivity. Qed.

Lemma join_cons (sep x y : string) (r : list string) :
  PyStr.join sep (x :: y :: r) = x ++ sep ++ PyStr.join sep (y :: r).
Proof. reflexivity. Qed.

(** Joining what [split] gives is the string again. *)
Lemma join_split (sep : ascii) (s : string) :
  PyStr.join (String sep "") (PyStr.split sep s) = s.
Proof.
  induction s as [|a r IH]; simpl; [reflexivity | ].
  pose proof (split_not_nil sep r) as Hnil.
  destruct (PyStr.split sep r) as [|h t] eqn:E; [contradiction | ].
  destruct (Ascii.eqb_spec a sep) as [->|Hne].
  - rewrite join_cons, IH. reflexivity.
  - rewrite join_cons_char, IH. reflexivity.
Qed.

Lemma split_free (sep : ascii) (x : string) :
  free_of sep x -> PyStr.split sep x = [x].
Proof.
  unfold free_of. induction x as [|a r IH]; simpl; [reflexivity | ].
  intros H. apply orb_false_iff in H. destruct H as [Ha Hr].
  rewrite Ascii.eqb_sym, Ha. now rewrite (IH Hr).
Qed.

Lemma split_app_free (sep : ascii) (x rest : string) :
  free_of sep x ->
  PyStr.split sep (x ++ String sep rest) = x :: PyStr.split sep rest.
Proof.
  unfold free_of. induction x as [|a r IH]; simpl.
  - intros _. now rewrite Ascii.eqb_refl.
  - intros H. apply orb_false_iff in H. destruct H as [Ha Hr].
    rewrite Ascii.eqb_sym, Ha. now rewrite (IH Hr).
Qed.

(** Splitting a join of parts that hold no separator gives the parts. *)
Lemma split_join (sep : ascii) (parts : list string) :
  parts <> [] -> Forall (free_of sep) parts ->
  PyStr.split sep (PyStr.join (String sep "") parts) = parts.
Proof.
  induction parts as [|x r IH]; [congruence | ].
  intros _ HF. inversion HF as [|? ? Hx Hr]; subst.
  destruct r as [|y r].
  - simpl. now apply split_free.
  - rewrite join_cons. simpl append.
    rewrite split_app_free by exact Hx.
    f_equal. apply IH; [discriminate | exact Hr].
Qed.

Lemma replace_same (c : ascii) (s : string) :
  PyStr.replace c (String c "") s = s.
Proof.
  induction s as [|a r IH]; simpl; [reflexivity | ].
  destruct (Ascii.eqb_spec a c) as [->|_]; simpl; now rewrite IH.
Qed.

(** A join ends with its last part. *)
Lemma join_last (sep : string) (l : list string) (x : string) :
  exists p, PyStr.join sep (l ++ [x])%list = p ++ x.
Proof.
  induction l as [|y l [p IH]].
  - exists "". reflexivity.
  - exists (y ++ sep ++ p).
    change ((y :: l) ++ [x])%list with (y :: (l ++ [x]))%list.
    destruct (l ++ [x])%list as [|z r] eqn:E.
    + destruct l; discriminate.
    + rewrite join_cons, IH. now rewrite !StrFacts.app_assoc.
Qed.

Lemma join_injective (sep : ascii) (l1 l2 : list string) :
  l1 <> [] -> l2 <> [] ->
  Forall (free_of sep) l1 -> Forall (free_of sep) l2 ->
  PyStr.join (String sep "") l1 = PyStr.join (String sep "") l2 ->
  l1 = l2.
Proof.
  intros N1 N2 F1 F2 H.
  rewrite <- (split_join sep l1 N1 F1), <- (split_join sep l2 N2 F2).
  now rewrite H.
Qed.

End SplitJoin.

(** ** The order of int tuples and the reverse sort *)

Module TupleFacts.

Lemma compare_antisym (a b : list Z) :
  PyTuple.compare b a = CompOpp (PyTuple.compare a b).
Proof.
  revert b. induction a as [|x a IH]; intros [|y b]; simpl; try reflexivity.
  rewrite (Z.compare_antisym x y).
  destruct (Z.compare x y); simpl; auto.
Qed.

Lemma compare_refl (a : list Z) : PyTuple.compare a a = Eq.
Proof.
  induction a as [|x a IH]; simpl; [reflexivity | ].
  now rewrite Z.compare_refl.
Qed.

Lemma not_gt_trans (a b c : list Z) :
  PyTuple.compare a b <> Gt -> PyTuple.compare b c <> Gt ->
  PyTuple.compare a c <> Gt.
Proof.
  revert b c. induction a as [|x a IH]; intros [|y b] [|z c]; simpl;
    try congruence.
  destruct (Z.compare_spec x y), (Z.compare_spec y z), (Z.compare_spec x z);
    subst; try lia; try congruence; eauto.
Qed.

Lemma le_iff (a b : list Z) :
  PyTuple.le a b = true <-> PyTuple.compare a b <> Gt.
Proof.
  unfold PyTuple.le, PyTuple.lt. rewrite (compare_antisym a b).
  destruct (PyTuple.compare a b); simpl; split; congruence.
Qed.

Lemma le_refl (a : list Z) : PyTuple.le a a = true.
Proof. apply le_iff. rewrite compare_refl. discriminate. Qed.

Lemma le_trans (a b c : list Z) :
  PyTuple.le a b = true -> PyTuple.le b c = true -> PyTuple.le a c = true.
Proof. rewrite !le_iff. apply not_gt_trans. Qed.

Lemma lt_le (a b : list Z) : PyTuple.lt a b = true -> PyTuple.le a b = true.
Proof.
  unfold PyTuple.le, PyTuple.lt. rewrite (compare_antisym a b).
  destruct (PyTuple.compare a b); simpl; congruence.
Qed.

Lemma not_lt_le (a b : list Z) : PyTuple.lt a b = false -> PyTuple.le b a = true.
Proof. unfold PyTuple.le. now intros ->. Qed.

Lemma le_not_lt (a b : list Z) : PyTuple.le a b = true -> PyTuple.lt b a = false.
Proof. unfold PyTuple.le. now destruct (PyTuple.lt b a). Qed.

Lemma compare_eq (a b : list Z) : PyTuple.compare a b = Eq -> a = b.
Proof.
  revert b. induction a as [|x a IH]; intros [|y b]; simpl; try discriminate.
  - reflexivity.
  - destruct (Z.compare_spec x y) as [->|_|_]; try discriminate.
    intros H. now rewrite (IH b H).
Qed.

End TupleFacts.

Section SortFacts.
Context {A : Type} (key : A -> list Z).

Local Abbreviation ge := (key_ge key).

Lemma insert_reverse_perm (x : A) (l : list A) :
  Permutation (insert_reverse key x l) (x :: l).
Proof.
  induction l as [|y r IH]; simpl; [apply Permutation_refl | ].
  destruct (PyTuple.lt (key x) (key y)); [ | apply Permutation_refl].
  eapply perm_trans; [apply perm_skip, IH | apply perm_swap].
Qed.

Lemma sort_reverse_perm (l : list A) : Permutation (sort_reverse key l) l.
Proof.
  induction l as [|x r IH]; simpl; [apply perm_nil | ].
  eapply perm_trans; [apply insert_reverse_perm | now apply perm_skip].
Qed.

Lemma insert_reverse_sorted (x : A) (l : list A) :
  StronglySorted ge l -> StronglySorted ge (insert_reverse key x l).
Proof.
  induction l as [|y r IH]; simpl; intros Hs.
  - constructor; [constructor | constructor].
  - apply StronglySorted_inv in Hs. destruct Hs as [Hr Hy].
    destruct (PyTuple.lt (key x) (key y)) eqn:E.
    + constructor; [now apply IH | ].
      apply Forall_forall. intros z Hz.
      apply (Permutation_in _ (insert_reverse_perm x r)) in Hz.
      destruct Hz as [<-|Hz].
      * now apply TupleFacts.lt_le.
      * rewrite Forall_forall in Hy. now apply Hy.
    + constructor; [now constructor | ].
      constructor; [now apply TupleFacts.not_lt_le | ].
      eapply Forall_impl; [ | exact Hy].
      intros z Hz. unfold ge in *.
      eapply TupleFacts.le_trans; [exact Hz | now apply TupleFacts.not_lt_le].
Qed.

Lemma sort_reverse_sorted (l : list A) : StronglySorted ge (sort_reverse key l).
Proof.
  induction l as [|x r IH]; simpl; [constructor | ].
  now apply insert_reverse_sorted.
Qed.

(** The sort is stable: elements that are not ordered among themselves
    keep their order. *)
Lemma insert_reverse_filter (p : A -> bool) (x : A) (l : list A) :
  (forall a b, p a = true -> p b = true -> PyTuple.lt (key a) (key b) = false) ->
  filter p (insert_reverse key x l) = filter p (x :: l).
Proof.
  intros Hp. induction l as [|y r IH]; [reflexivity | ].
  simpl insert_reverse. destruct (PyTuple.lt (key x) (key y)) eqn:E; [ | reflexivity].
  simpl filter in *. rewrite IH.
  destruct (p x) eqn:Px, (p y) eqn:Py; try reflexivity.
  rewrite (Hp x y Px Py) in E. discriminate.
Qed.

Lemma sort_reverse_stable (p : A -> bool) (l : list A) :
  (forall a b, p a = true -> p b = true -> PyTuple.lt (key a) (key b) = false) ->
  filter p (sort_reverse key l) = filter p l.
Proof.
  intros Hp. induction l as [|x r IH]; [reflexivity | ].
  simpl sort_reverse. rewrite (insert_reverse_filter p x _ Hp).
  simpl. now rewrite IH.
Qed.

(** In a list in descending order nothing behind an element has a
    larger key. *)
Lemma sorted_behind (l1 l2 : list A) (a b : A) :
  StronglySorted ge (l1 ++ a :: l2) -> In b l2 ->
  PyTuple.lt (key a) (key b) = false.
Proof.
  induction l1 as [|x l1 IH]; simpl; intros Hs Hb.
  - apply StronglySorted_inv in Hs. destruct Hs as [_ Ha].
    rewrite Forall_forall in Ha. now apply TupleFacts.le_not_lt, Ha.
  - apply StronglySorted_inv in Hs. destruct Hs as [Hs _]. now apply IH.
Qed.

End SortFacts.

(** ** Lists *)

Section ListFacts.
Context {A : Type}.

Lemma filter_perm (p : A -> bool) (l l' : list A) :
  Permutation l l' -> Permutation (filter p l) (filter p l').
Proof.
  induction 1 as [|x l l' _ IH|x y l|l l' l'' _ IH1 _ IH2]; simpl.
  - apply perm_nil.
  - destruct (p x); [now apply perm_skip | exact IH].
  - destruct (p x), (p y); try apply Permutation_refl. apply perm_swap.
  - now apply perm_trans with (filter p l').
Qed.

Lemma filter_none (p : A -> bool) (l : list A) :
  (forall x, In x l -> p x = false) -> filter p l = [].
Proof.
  induction l as [|x l IH]; simpl; intros H; [reflexivity | ].
  rewrite (H x (or_introl eq_refl)). apply IH. intros y Hy. apply H. now right.
Qed.

(** Filtering keeps the images under [g] distinct. *)
Lemma NoDup_map_filter {B : Type} (keep : A -> bool) (g : A -> B) (xs : list A)
    (distinct : NoDup (map g xs)) :
  NoDup (map g (filter keep xs)).
Proof.
  induction xs as [|x xs IH]; simpl; [constructor | ].
  simpl in distinct. inversion distinct as [|? ? Hx Hl]; subst.
  destruct (keep x); simpl; [ | now apply IH].
  constructor; [ | now apply IH].
  intros Hin. apply Hx. apply in_map_iff in Hin. destruct Hin as [y [Hy Hin]].
  apply in_map_iff. exists y. split; [exact Hy | ].
  apply filter_In in Hin. tauto.
Qed.

(** Two different members of a list stand one before the other. *)
Lemma before_or (a b : A) (l : list A) :
  In a l -> In b l -> a <> b -> before a b l \/ before b a l.
Proof.
  intros Ha Hb Hne.
  apply in_split in Ha. destruct Ha as [l1 [l2 ->]].
  apply in_app_or in Hb. destruct Hb as [Hb|[Hb|Hb]].
  - right. apply in_split in Hb. destruct Hb as [m1 [m2 ->]].
    exists m1, m2, l2. now rewrite <- app_assoc.
  - congruence.
  - left. apply in_split in Hb. destruct Hb as [m1 [m2 ->]].
    exists l1, m1, m2. reflexivity.
Qed.

End ListFacts.

(** ** The registry update *)

Section UpdateFacts.
Variables (data : Registry) (version version_label current_time : string).

Local Abbreviation entry := (version_entry version version_label current_time).
Local Abbreviation kept := (without_version version (versions data)).

Lemma update_latest :
  version = "latest" ->
  stable (update_data data version version_label current_time) = stable data
  /\ versions (update_data data version version_label current_time) = versions data.
Proof. intros ->. split; reflexivity. Qed.

Lemma update_release_versions :
  version <> "latest" ->
  versions (update_data data version version_label current_time)
  = sort_reverse sort_key (kept ++ [entry]).
Proof.
  intros H. apply String.eqb_neq in H. unfold update_data. rewrite H. reflexivity.
Qed.

Lemma update_release_stable :
  version <> "latest" ->
  exists first rest,
    versions (update_data data version version_label current_time) = first :: rest
    /\ stable (update_data data version version_label current_time)
       = Some (Release.version first).
Proof.
  intros H. apply String.eqb_neq in H. unfold update_data. rewrite H.
  cbn [versions stable].
  set (sorted := sort_reverse sort_key _).
  pose proof (sort_reverse_perm sort_key (kept ++ [entry])) as P.
  change (sort_reverse sort_key (kept ++ [entry])) with sorted in P.
  destruct sorted as [|first rest].
  - apply Permutation_nil in P. destruct kept; discriminate.
  - exists first, rest. split; reflexivity.
Qed.

Lemma update_release_perm :
  version <> "latest" ->
  Permutation (versions (update_data data version version_label current_time))
    (kept ++ [entry]).
Proof.
  intros H. rewrite (update_release_versions H). apply sort_reverse_perm.
Qed.

Lemma update_release_sorted :
  version <> "latest" ->
  descending (versions (update_data data version version_label current_time)).
Proof.
  intros H. rewrite (update_release_versions H). apply sort_reverse_sorted.
Qed.

Lemma update_release_records :
  version <> "latest" ->
  records_of version (versions (update_data data version version_label current_time))
  = [entry].
Proof.
  intros H.
  apply Permutation_length_1_inv. apply Permutation_sym.
  eapply perm_trans; [apply filter_perm, (update_release_perm H) | ].
  unfold records_of. rewrite filter_app. simpl. rewrite String.eqb_refl.
  rewrite filter_none; [apply Permutation_refl | ].
  intros x Hx. apply filter_In in Hx. destruct Hx as [_ Hx].
  now apply negb_true_iff in Hx.
Qed.

Lemma update_unique :
  unique_versions data ->
  unique_versions (update_data data version version_label current_time).
Proof.
  unfold unique_versions. intros Hu.
  destruct (String.eqb_spec version "latest") as [E|E].
  - now rewrite (proj2 (update_latest E)).
  - eapply Permutation_NoDup.
    + apply Permutation_sym, Permutation_map, (update_release_perm E).
    + rewrite map_app. simpl.
      eapply Permutation_NoDup; [apply Permutation_cons_append | ].
      constructor; [ | now apply NoDup_map_filter].
      intros Hin. apply in_map_iff in Hin. destruct Hin as [x [Hx Hin]].
      apply filter_In in Hin. destruct Hin as [_ Hin].
      apply negb_true_iff, String.eqb_neq in Hin. now apply Hin.
Qed.

Lemma update_stable_invariant :
  (version = "latest" -> stable_invariant data) ->
  stable_invariant (update_data data version version_label current_time).
Proof.
  intros Hinv. unfold stable_invariant.
  destruct (String.eqb_spec version "latest") as [E|E].
  - destruct (update_latest E) as [-> ->]. now apply Hinv.
  - destruct (update_release_stable E) as [first [rest [-> ->]]]. reflexivity.
Qed.

End UpdateFacts.

Lemma load_stable_invariant (file : option Registry) :
  on_file stable_invariant file -> stable_invariant (load_versions file).
Proof. destruct file; simpl; [trivial | reflexivity]. Qed.

Lemma load_unique (file : option Registry) :
  on_file unique_versions file -> unique_versions (load_versions file).
Proof. destruct file; simpl; [trivial | constructor]. Qed.

(** What every run keeps holds after any number of runs. *)
Lemma run_all_invariant (P : Registry -> Prop) :
  (forall file v l t, on_file P file -> P (fst (update_versions_file file v l t))) ->
  forall runs file, on_file P file -> on_file P (run_all file runs).
Proof.
  intros Hstep. induction runs as [|[[v l] t] runs IH]; intros file Hf; simpl.
  - exact Hf.
  - apply IH. simpl. now apply Hstep.
Qed.

(** C1, as stated, fails: a snapshot update of a document whose
    [stable] is not the version of its first record leaves both as they
    are. *)
Lemma snapshot_update_keeps_stale_stable :
  ~ (forall file v l t, stable_invariant (fst (update_versions_file file v l t))).
Proof.
  intros H.
  specialize (H (Some (MkRegistry
                         (Latest.Build "/latest/" "Latest (Snapshot)" "main" None)
                         (Some "v9.9.9")
                         [Release.Build "v0.1.0" "/v0.1.0/" "v0.1.0" "t0"]))
                "latest" "Latest (Snapshot)" "t1").
  vm_compute in H. discriminate H.
Qed.

(** C1, amended: after a release update the [stable] field is the
    version of the first record of [versions], which exists.  A snapshot
    update leaves [stable] and [versions] as loaded, so after it the
    same holds when it held of the loaded document.  Every update keeps
    the property, and it holds after any runs that start without a
    file. *)
Theorem stable_tracks_first_version :
  (forall file v l t,
      (v = "latest" -> on_file stable_invariant file) ->
      stable_invariant (fst (update_versions_file file v l t)))
  /\ (forall file v l t,
         v <> "latest" ->
         exists first rest,
           versions (fst (update_versions_file file v l t)) = first :: rest
           /\ stable (fst (update_versions_file file v l t))
              = Some (Release.version first))
  /\ (forall runs, on_file stable_invariant (run_all None runs))
  /\ (forall file l t,
         stable (fst (update_versions_file file "latest" l t))
         = stable (load_versions file)
         /\ versions (fst (update_versions_file file "latest" l t))
            = versions (load_versions file)).
Proof.
  assert (Hstep : forall file v l t,
             (v = "latest" -> on_file stable_invariant file) ->
             stable_invariant (fst (update_versions_file file v l t))).
  { intros file v l t H. simpl. apply update_stable_invariant.
    intros E. now apply load_stable_invariant, H. }
  split; [exact Hstep | split; [ | split]].
  - intros file v l t H. simpl. now apply update_release_stable.
  - intros runs. apply run_all_invariant; [ | exact I].
    intros file v l t H. now apply Hstep.
  - intros file l t. split; reflexivity.
Qed.

Lemma stable_tracks_first_version_witness :
  stable_invariant (fst (update_versions_file None "latest" "Latest (Snapshot)" "2026-01-05T10:00:00Z"))
  /\ exists first rest,
       versions (fst (update_versions_file None "v0.1.9" "v0.1.9" "2026-01-05T10:00:00Z"))
       = first :: rest
       /\ stable (fst (update_versions_file None "v0.1.9" "v0.1.9" "2026-01-05T10:00:00Z"))
          = Some (Release.version first).
Proof.
  split.
  - apply (proj1 stable_tracks_first_version). intros _. exact I.
  - apply (proj1 (proj2 stable_tracks_first_version)). discriminate.
Defined.

Lemma release_other_records (data : Registry) (v l t w : string) :
  v <> "latest" -> w <> v ->
  records_of w (versions (update_data data v l t)) = records_of w (versions data).
Proof.
  intros Hv Hw. rewrite (update_release_versions _ _ _ _ Hv).
  unfold records_of. rewrite sort_reverse_stable.
  - rewrite filter_app. simpl.
    rewrite (proj2 (String.eqb_neq v w) (not_eq_sym Hw)), app_nil_r.
    unfold without_version.
    induction (versions data) as [|a rest IH]; [reflexivity | ].
    simpl. destruct (String.eqb_spec (Release.version a) v) as [E|E]; simpl.
    + rewrite E, (proj2 (String.eqb_neq v w) (not_eq_sym Hw)). exact IH.
    + destruct (String.eqb (Release.version a) w); now rewrite IH.
  - intros a b Ha Hb. apply String.eqb_eq in Ha, Hb.
    unfold sort_key. rewrite Ha, Hb.
    unfold PyTuple.lt. now rewrite TupleFacts.compare_refl.
Qed.

(** C2, as stated, fails: a release update drops the records of the
    deployed version only, so two records of another version that the
    loaded document holds are both kept. *)
Lemma other_duplicates_stay :
  ~ (forall file v l t,
        v <> "latest" ->
        unique_versions (fst (update_versions_file file v l t))).
Proof.
  intros H.
  specialize (H (Some (MkRegistry
                         (Latest.Build "/latest/" "Latest (Snapshot)" "main" None)
                         (Some "v0.2.0")
                         [Release.Build "v0.2.0" "/v0.2.0/" "first" "t0";
                          Release.Build "v0.2.0" "/v0.2.0/" "second" "t1"]))
                "v0.1.9" "v0.1.9" "t2").
  assert (Hv : "v0.1.9" <> "latest") by discriminate.
  specialize (H Hv). unfold unique_versions in H. vm_compute in H.
  inversion H as [|x xs Hx _]. apply Hx. left. reflexivity.
Qed.

(** C2, amended: when the loaded document holds at most one record per
    version, so does the document after any update, and so does every
    document reached by runs that start without a file.  For every
    document, after a release update there is exactly one record of the
    deployed version and it is the new one, so a second run with the
    same version and another label leaves the record with the second
    label only; the records of every other version stay as they
    were. *)
Theorem versions_stay_unique :
  (forall file v l t,
      on_file unique_versions file ->
      unique_versions (fst (update_versions_file file v l t)))
  /\ (forall file v l t,
         v <> "latest" ->
         records_of v (versions (fst (update_versions_file file v l t)))
         = [Release.Build v ("/" ++ v ++ "/") l t])
  /\ (forall file v l1 t1 l2 t2,
         v <> "latest" ->
         records_of v
           (versions
              (fst (update_versions_file
                      (Some (fst (update_versions_file file v l1 t1))) v l2 t2)))
         = [Release.Build v ("/" ++ v ++ "/") l2 t2])
  /\ (forall runs, on_file unique_versions (run_all None runs))
  /\ (forall file v l t w,
         v <> "latest" -> w <> v ->
         records_of w (versions (fst (update_versions_file file v l t)))
         = records_of w (versions (load_versions file))).
Proof.
  assert (Hstep : forall file v l t,
             on_file unique_versions file ->
             unique_versions (fst (update_versions_file file v l t))).
  { intros file v l t H. simpl. now apply update_unique, load_unique. }
  split; [exact Hstep | split; [ | split; [ | split]]].
  - intros file v l t H. simpl. now apply update_release_records.
  - intros file v l1 t1 l2 t2 H. simpl. now apply update_release_records.
  - intros runs. now apply run_all_invariant.
  - intros file v l t w Hv Hw. simpl. now apply release_other_records.
Qed.

Lemma versions_stay_unique_witness :
  unique_versions (fst (update_versions_file None "v0.1.9" "v0.1.9" "2026-01-05T10:00:00Z"))
  /\ records_of "v0.1.9"
       (versions
          (fst (update_versions_file
                  (Some (fst (update_versions_file None "v0.1.9" "first" "2026-01-05T10:00:00Z")))
                  "v0.1.9" "second" "2026-01-06T10:00:00Z")))
     = [Release.Build "v0.1.9" "/v0.1.9/" "second" "2026-01-06T10:00:00Z"].
Proof.
  split.
  - apply (proj1 versions_stay_unique). exact I.
  - apply (proj1 (proj2 (proj2 versions_stay_unique))). discriminate.
Defined.

(** C5: after a release update [versions] is in descending order of the
    parsed keys, which compare as integers: every record of [v0.1.10]
    stands before every record of [v0.1.9]. *)
Theorem release_update_sorts_descending (file : option Registry) (v l t : string) :
  v <> "latest" ->
  let data := fst (update_versions_file file v l t) in
  descending (versions data)
  /\ (forall a b,
         In a (versions data) -> In b (versions data) ->
         Release.version a = "v0.1.10" -> Release.version b = "v0.1.9" ->
         before a b (versions data) /\ ~ before b a (versions data)).
Proof.
  intros Hv data.
  assert (Hs : descending (versions data)) by now apply update_release_sorted.
  split; [exact Hs | ].
  intros a b Ha Hb Ea Eb.
  assert (Hnot : ~ before b a (versions data)).
  { intros [l1 [l2 [l3 E]]]. rewrite E in Hs.
    assert (Hlt : PyTuple.lt (sort_key b) (sort_key a) = false).
    { apply (sorted_behind sort_key l1 (l2 ++ a :: l3) b a Hs).
      apply in_or_app. right. now left. }
    unfold sort_key in Hlt. rewrite Ea, Eb in Hlt. vm_compute in Hlt. discriminate. }
  split; [ | exact Hnot].
  destruct (before_or a b (versions data) Ha Hb) as [H|H]; [ | exact H | contradiction].
  intros ->. rewrite Ea in Eb. discriminate.
Qed.

Lemma release_update_sorts_descending_witness :
  descending
    (versions (fst (update_versions_file
                      (Some (fst (update_versions_file None "v0.1.9" "v0.1.9" "2026-01-05T10:00:00Z")))
                      "v0.1.10" "v0.1.10" "2026-02-01T10:00:00Z"))).
Proof.
  apply (release_update_sorts_descending
           (Some (fst (update_versions_file None "v0.1.9" "v0.1.9" "2026-01-05T10:00:00Z")))
           "v0.1.10" "v0.1.10" "2026-02-01T10:00:00Z").
  discriminate.
Defined.

(** C4, as stated, fails: a record of the valid version [v0.0.0] has the
    fallback key itself, and the stable sort leaves an unparseable
    record that was listed before it in front of it. *)
Lemma unparseable_before_zero_version :
  ~ (forall file v l t u r,
        v <> "latest" ->
        In u (versions (fst (update_versions_file file v l t))) ->
        In r (versions (fst (update_versions_file file v l t))) ->
        parse_version_try (Release.version u) = None ->
        parse_version_try (Release.version r) <> None ->
        before r u (versions (fst (update_versions_file file v l t)))).
Proof.
  intros H.
  assert (B : before (Release.Build "v0.0.0" "/v0.0.0/" "Zero" "t2")
                (Release.Build "banana" "/banana/" "Banana" "t1")
                (versions
                   (fst (update_versions_file
                           (run_all None [("banana", "Banana", "t1"); ("v0.0.0", "Zero", "t2")])
                           "v1.0.0" "One" "t3")))).
  { apply H.
    - discriminate.
    - vm_compute. right. left. reflexivity.
    - vm_compute. right. right. left. reflexivity.
    - reflexivity.
    - vm_compute. discriminate. }
  destruct B as [l1 [l2 [l3 E]]].
  vm_compute in E.
  destruct l1 as [|x1 [|x2 [|x3 l1]]]; try discriminate E.
  - injection E as _ _ E. destruct l2; discriminate E.
  - injection E as _ _ _ E. destruct l1; discriminate E.
Qed.

(** C4, amended: a release update never fails on an unparseable version,
    whose key is the fallback (0,0,0), and after it every record whose
    key is above (0,0,0) stands before every unparseable record and
    never behind one; such are the versions of three components that
    are not negative and not all zero.  The records whose key is
    (0,0,0), parseable or not, stay in the order they had, the new
    record last. *)
Theorem unparseable_sorts_behind_larger_keys (file : option Registry) (v l t : string) :
  v <> "latest" ->
  let data := fst (update_versions_file file v l t) in
  (forall u, parse_version_try (Release.version u) = None -> sort_key u = [0; 0; 0]%Z)
  /\ (forall u r,
         In u (versions data) -> In r (versions data) ->
         parse_version_try (Release.version u) = None ->
         PyTuple.lt [0; 0; 0]%Z (sort_key r) = true ->
         before r u (versions data) /\ ~ before u r (versions data))
  /\ (forall r a b c,
         parse_version_try (Release.version r) = Some [a; b; c] ->
         (0 <= a)%Z -> (0 <= b)%Z -> (0 <= c)%Z -> (0 < a \/ 0 < b \/ 0 < c)%Z ->
         PyTuple.lt [0; 0; 0]%Z (sort_key r) = true)
  /\ filter (has_key [0; 0; 0]%Z) (versions data)
     = filter (has_key [0; 0; 0]%Z)
         (without_version v (versions (load_versions file)) ++ [version_entry v l t])%list.
Proof.
  intros Hv data.
  assert (Hkey : forall u, parse_version_try (Release.version u) = None ->
                           sort_key u = [0; 0; 0]%Z).
  { intros u Hu. unfold sort_key, parse_version. now rewrite Hu. }
  split; [exact Hkey | split; [ | split]].
  - intros u r Hu Hr Eu Lr.
    assert (Hs : descending (versions data)) by now apply update_release_sorted.
    assert (Hnot : ~ before u r (versions data)).
    { intros [l1 [l2 [l3 E]]]. rewrite E in Hs.
      assert (Hlt : PyTuple.lt (sort_key u) (sort_key r) = false).
      { apply (sorted_behind sort_key l1 (l2 ++ r :: l3) u r Hs).
        apply in_or_app. right. now left. }
      rewrite (Hkey u Eu) in Hlt. congruence. }
    split; [ | exact Hnot].
    destruct (before_or r u (versions data) Hr Hu) as [H|H]; [ | exact H | contradiction].
    intros ->. rewrite (Hkey u Eu) in Lr. vm_compute in Lr. discriminate.
  - intros r a b c E Ha Hb Hc Hpos.
    unfold sort_key, parse_version. rewrite E.
    unfold PyTuple.lt.
    destruct a, b, c; simpl; try reflexivity; lia.
  - unfold data. simpl fst. rewrite (update_release_versions _ _ _ _ Hv).
    apply sort_reverse_stable. intros a b Ha Hb. unfold has_key in Ha, Hb.
    destruct (PyTuple.compare (sort_key a) [0; 0; 0]%Z) eqn:Ea; try discriminate.
    destruct (PyTuple.compare (sort_key b) [0; 0; 0]%Z) eqn:Eb; try discriminate.
    apply TupleFacts.compare_eq in Ea, Eb. rewrite Ea, Eb. reflexivity.
Qed.

Lemma unparseable_sorts_behind_larger_keys_witness :
  before (Release.Build "v0.1.9" "/v0.1.9/" "v0.1.9" "t2")
         (Release.Build "banana" "/banana/" "Banana" "t1")
         (versions (fst (update_versions_file
                           (run_all None [("banana", "Banana", "t1")])
                           "v0.1.9" "v0.1.9" "t2"))).
Proof.
  apply (unparseable_sorts_behind_larger_keys
           (run_all None [("banana", "Banana", "t1")]) "v0.1.9" "v0.1.9" "t2").
  - discriminate.
  - vm_compute. right. left. reflexivity.
  - vm_compute. left. reflexivity.
  - reflexivity.
  - reflexivity.
Defined.

(** ** Version parsing *)

Module ParseFacts.

Lemma split_parts_free (sep : ascii) (s : string) :
  Forall (free_of sep) (PyStr.split sep s).
Proof.
  induction s as [|a r IH]; simpl.
  - constructor; [reflexivity | constructor].
  - destruct (Ascii.eqb a sep) eqn:E.
    + constructor; [reflexivity | exact IH].
    + destruct (PyStr.split sep r) as [|h t]; [repeat constructor | ].
      * unfold free_of. simpl. now rewrite Ascii.eqb_sym, E.
      * inversion IH as [|? ? Hh Ht]; subst. constructor; [ | exact Ht].
        unfold free_of in *. simpl. now rewrite Ascii.eqb_sym, E, Hh.
Qed.

Lemma startswith_v (a : ascii) (r : string) :
  PyStr.startswith (String a r) "v" = Ascii.eqb a "v".
Proof.
  simpl. now rewrite andb_true_r.
Qed.

Lemma lstrip_no_v (rest : string) :
  PyStr.startswith rest "v" = false -> PyStr.lstrip "v" rest = rest.
Proof.
  destruct rest as [|a r]; [reflexivity | ].
  rewrite startswith_v. intros E. simpl. now rewrite E.
Qed.

Lemma lstrip_vs (n : nat) (rest : string) :
  PyStr.startswith rest "v" = false -> PyStr.lstrip "v" (vs n ++ rest) = rest.
Proof.
  intros H. induction n as [|n IH]; simpl; [now apply lstrip_no_v | exact IH].
Qed.

(** Every string is some [v]s and a rest that starts otherwise. *)
Lemma lstrip_shape (s : string) :
  exists n, s = vs n ++ PyStr.lstrip "v" s
            /\ PyStr.startswith (PyStr.lstrip "v" s) "v" = false.
Proof.
  induction s as [|a r [n [E H]]].
  - exists 0%nat. split; reflexivity.
  - destruct (Ascii.eqb a "v") eqn:Ev.
    + apply Ascii.eqb_eq in Ev. subst a. exists (S n).
      change (PyStr.lstrip "v" (String "v" r)) with (PyStr.lstrip "v" r).
      split; [simpl; now rewrite <- E | exact H].
    + assert (L : PyStr.lstrip "v" (String a r) = String a r)
        by (simpl; now rewrite Ev).
      rewrite L. exists 0%nat. split; [reflexivity | now rewrite startswith_v].
Qed.

Lemma map_or_raise_some {A B : Type} (f : A -> option B) (l : list A) (ys : list B) :
  Forall2 (fun x y => f x = Some y) l ys -> map_or_raise f l = Some ys.
Proof.
  induction 1 as [|x y l ys Hx _ IH]; simpl; [reflexivity | ].
  now rewrite Hx, IH.
Qed.

Lemma map_or_raise_none {A B : Type} (f : A -> option B) (l : list A) :
  Exists (fun x => f x = None) l -> map_or_raise f l = None.
Proof.
  induction 1 as [x l Hx|x l _ IH]; simpl.
  - now rewrite Hx.
  - destruct (f x); [now rewrite IH | reflexivity].
Qed.

Lemma parse_try_shape (n : nat) (parts : list string) (s : string) :
  version_shape n parts s ->
  parse_version_try s = map_or_raise PyStr.int (firstn 3 parts).
Proof.
  intros [Hne [Hfree [Hv ->]]]. unfold parse_version_try.
  rewrite (lstrip_vs n _ Hv).
  change "." with (String "."%char "") at 1.
  now rewrite SplitJoin.split_join.
Qed.

End ParseFacts.

Module IntFacts.

Lemma digit_char (d : nat) :
  (d < 10)%nat ->
  let c := ascii_of_nat (48 + d) in
  PyStr.is_digit c = true
  /\ PyStr.digit_value c = Z.of_nat d
  /\ Ascii.eqb c "." = false
  /\ Ascii.eqb c "v" = false
  /\ (forall r, PyStr.int (String c r) = PyStr.int_unsigned (String c r)).
Proof.
  intros H.
  do 10 (destruct d as [|d]; [repeat split; intros; reflexivity | ]).
  lia.
Qed.

Lemma scan_digits_digit (acc : Z) (cnt : nat) (a : ascii) (r : string) :
  PyStr.is_digit a = true ->
  PyStr.scan_digits acc cnt (String a r)
  = PyStr.scan_digits (10 * acc + PyStr.digit_value a) (S cnt) r.
Proof. intros H. simpl. now rewrite H. Qed.

Lemma scan_numeral (ds : list nat) :
  Forall (fun d => (d < 10)%nat) ds ->
  forall acc cnt,
    PyStr.scan_digits acc cnt (numeral ds)
    = Some (fold_left (fun a d => (10 * a + Z.of_nat d)%Z) ds acc,
            (cnt + List.length ds)%nat, "").
Proof.
  induction 1 as [|d r Hd _ IH]; intros acc cnt.
  - simpl. now rewrite Nat.add_0_r.
  - change (numeral (d :: r)) with (String (ascii_of_nat (48 + d)) (numeral r)).
    destruct (digit_char d Hd) as [Hdig [Hval _]].
    rewrite (scan_digits_digit _ _ _ _ Hdig), Hval, IH.
    simpl. now rewrite Nat.add_succ_r.
Qed.

Lemma int_unsigned_digit (a : ascii) (r : string) :
  PyStr.is_digit a = true ->
  PyStr.int_unsigned (String a r)
  = match PyStr.scan_digits (PyStr.digit_value a) 1 r with
    | Some (n, cnt, rest) =>
        match PyStr.skip_spaces rest with
        | EmptyString => if (cnt <=? PyStr.max_str_digits)%nat then Some n else None
        | _ => None
        end
    | None => None
    end.
Proof. intros H. unfold PyStr.int_unsigned. now rewrite H. Qed.

(** [int] reads a decimal numeral of at most [max_str_digits] digits
    as its value. *)
Lemma int_numeral (ds : list nat) :
  ds <> [] -> Forall (fun d => (d < 10)%nat) ds ->
  (List.length ds <= PyStr.max_str_digits)%nat ->
  PyStr.int (numeral ds) = Some (numeral_value ds).
Proof.
  destruct ds as [|d r]; [congruence | ].
  intros _ HF Hlen. inversion HF as [|? ? Hd Hr]; subst.
  change (numeral (d :: r)) with (String (ascii_of_nat (48 + d)) (numeral r)).
  destruct (digit_char d Hd) as [Hdig [Hval [_ [_ Hint]]]].
  rewrite Hint, (int_unsigned_digit _ _ Hdig), Hval, (scan_numeral r Hr).
  cbv beta iota.
  change (PyStr.skip_spaces "") with "".
  apply Nat.leb_le in Hlen.
  change (1 + List.length r)%nat with (List.length (d :: r)).
  rewrite Hlen.
  unfold numeral_value. simpl fold_left.
  replace (10 * 0 + Z.of_nat d)%Z with (Z.of_nat d) by lia.
  reflexivity.
Qed.

Lemma numeral_no_dot (ds : list nat) :
  Forall (fun d => (d < 10)%nat) ds -> free_of "." (numeral ds).
Proof.
  unfold free_of. induction 1 as [|d r Hd _ IH]; [reflexivity | ].
  change (numeral (d :: r)) with (String (ascii_of_nat (48 + d)) (numeral r)).
  destruct (digit_char d Hd) as [_ [_ [Hdot _]]].
  change (PyStr.char_in "." (String (ascii_of_nat (48 + d)) (numeral r)))
    with (Ascii.eqb "." (ascii_of_nat (48 + d)) || PyStr.char_in "." (numeral r)).
  rewrite Ascii.eqb_sym, Hdot. exact IH.
Qed.

Lemma numeral_no_v (ds : list nat) (rest : string) :
  ds <> [] -> Forall (fun d => (d < 10)%nat) ds ->
  PyStr.startswith (numeral ds ++ rest) "v" = false.
Proof.
  destruct ds as [|d r]; [congruence | ].
  intros _ HF. inversion HF as [|? ? Hd _]; subst.
  change (numeral (d :: r) ++ rest)
    with (String (ascii_of_nat (48 + d)) (numeral r ++ rest)).
  rewrite ParseFacts.startswith_v.
  destruct (digit_char d Hd) as [_ [_ [_ [Hv _]]]]. exact Hv.
Qed.

Lemma map_or_raise_length {A B : Type} (f : A -> option B) (l : list A) (ys : list B) :
  map_or_raise f l = Some ys -> List.length ys = List.length l.
Proof.
  revert ys. induction l as [|x l IH]; simpl; intros ys H.
  - now injection H as <-.
  - destruct (f x); [ | discriminate].
    destruct (map_or_raise f l) as [zs|]; [ | discriminate].
    injection H as <-. simpl. now rewrite (IH zs).
Qed.

End IntFacts.

Lemma specified_shape (n : nat) (parts : list string) (s : string) :
  version_shape n parts s -> (n <= 1)%nat ->
  parse_version_as_specified s
  = match map_or_raise PyStr.int (firstn 3 parts) with
    | Some [major; minor; patch] => [major; minor; patch]
    | _ => [0; 0; 0]%Z
    end.
Proof.
  intros [Hne [Hfree [Hv ->]]] Hn. unfold parse_version_as_specified.
  assert (E : strip_one_v (vs n ++ PyStr.join "." parts) = PyStr.join "." parts).
  { destruct n as [|[|n]]; [ | reflexivity | lia].
    simpl append. destruct (PyStr.join "." parts) as [|a r]; [reflexivity | ].
    rewrite ParseFacts.startswith_v in Hv. unfold strip_one_v. now rewrite Hv. }
  rewrite E.
  change "." with (String "."%char "") at 1.
  now rewrite SplitJoin.split_join.
Qed.

(** C3, as stated, fails: a version of two components gives a tuple of
    two numbers, neither a triple nor the fallback; and a second leading
    [v] is dropped like the first, where the specified parsing meets a
    component that is no integer. *)
Lemma parse_version_two_components :
  parse_version "v1.2" = [1; 2]%Z
  /\ parse_version "v1.2" <> parse_version_as_specified "v1.2"
  /\ ~ (forall s, List.length (parse_version s) = 3%nat)
  /\ parse_version "vv1.2.3" = [1; 2; 3]%Z
  /\ parse_version_as_specified "vv1.2.3" = [0; 0; 0]%Z.
Proof.
  split; [reflexivity | split; [ | split; [ | split; reflexivity]]].
  - vm_compute. discriminate.
  - intros H. specialize (H "v1.2"). vm_compute in H. discriminate.
Qed.

(** C3, amended: [parse_version] drops every leading [v], splits the
    rest at the dots and parses up to the first three components as
    integers.  When all of them parse, the result is the tuple of these
    integers, one per component taken, so a triple only when there are
    three components or more; when one of them is no integer, the result
    is (0,0,0).  It then agrees with the specified parsing when at most
    one [v] leads and there are three components or one of them fails.
    Every string reads this way, so [parse_version] never raises; for
    [v] and three decimal numerals it gives their values. *)
Theorem parse_version_by_components :
  (forall s, exists n parts, version_shape n parts s)
  /\ (forall s n parts,
         version_shape n parts s ->
         (forall ints,
             Forall2 parses_as (firstn 3 parts) ints ->
             parse_version s = ints
             /\ List.length ints = Nat.min 3 (List.length parts))
         /\ (Exists no_int (firstn 3 parts) -> parse_version s = [0; 0; 0]%Z)
         /\ ((n <= 1)%nat ->
             (3 <= List.length parts)%nat \/ Exists no_int (firstn 3 parts) ->
             parse_version s = parse_version_as_specified s))
  /\ (forall d1 d2 d3,
         digits_ok d1 -> digits_ok d2 -> digits_ok d3 ->
         parse_version ("v" ++ numeral d1 ++ "." ++ numeral d2 ++ "." ++ numeral d3)
         = [numeral_value d1; numeral_value d2; numeral_value d3]).
Proof.
  assert (Hok : forall s n parts ints,
             version_shape n parts s ->
             Forall2 parses_as (firstn 3 parts) ints ->
             parse_version s = ints).
  { intros s n parts ints Hs HF. unfold parse_version.
    rewrite (ParseFacts.parse_try_shape n parts s Hs).
    now rewrite (ParseFacts.map_or_raise_some _ _ _ HF). }
  split; [ | split].
  - intros s. destruct (ParseFacts.lstrip_shape s) as [n [E Hv]].
    exists n, (PyStr.split "." (PyStr.lstrip "v" s)).
    assert (J : PyStr.join "." (PyStr.split "." (PyStr.lstrip "v" s))
                = PyStr.lstrip "v" s) by apply SplitJoin.join_split.
    repeat split.
    + apply SplitJoin.split_not_nil.
    + apply ParseFacts.split_parts_free.
    + now rewrite J.
    + now rewrite J.
  - intros s n parts Hs. split; [ | split].
    + intros ints HF. split; [now apply (Hok s n parts) | ].
      rewrite <- (Forall2_length HF). apply length_firstn.
    + intros HE. unfold parse_version.
      rewrite (ParseFacts.parse_try_shape n parts s Hs).
      now rewrite (ParseFacts.map_or_raise_none _ _ HE).
    + intros Hn Hcase. rewrite (specified_shape n parts s Hs Hn).
      unfold parse_version. rewrite (ParseFacts.parse_try_shape n parts s Hs).
      destruct Hcase as [Hlen|HE].
      * destruct (map_or_raise PyStr.int (firstn 3 parts)) as [t|] eqn:E; [ | reflexivity].
        apply IntFacts.map_or_raise_length in E.
        rewrite length_firstn, (Nat.min_l _ _ Hlen) in E.
        destruct t as [|a [|b [|c [|e t]]]]; try discriminate E. reflexivity.
      * now rewrite (ParseFacts.map_or_raise_none _ _ HE).
  - intros d1 d2 d3 [N1 [F1 L1]] [N2 [F2 L2]] [N3 [F3 L3]].
    apply (Hok _ 1%nat [numeral d1; numeral d2; numeral d3]).
    + repeat split.
      * discriminate.
      * repeat constructor; now apply IntFacts.numeral_no_dot.
      * now apply IntFacts.numeral_no_v.
    + repeat constructor; now apply IntFacts.int_numeral.
Qed.

Lemma parse_version_by_components_witness :
  parse_version "v0.1.10" = [0; 1; 10]%Z /\ parse_version "banana" = [0; 0; 0]%Z.
Proof.
  assert (S1 : version_shape 1 ["0"; "1"; "10"] "v0.1.10").
  { repeat split; try reflexivity; [discriminate | repeat constructor]. }
  assert (S2 : version_shape 0 ["banana"] "banana").
  { repeat split; try reflexivity; [discriminate | repeat constructor]. }
  split.
  - apply (proj1 (proj1 (proj2 parse_version_by_components)
                    "v0.1.10" 1%nat ["0"; "1"; "10"] S1) [0; 1; 10]%Z).
    repeat constructor.
  - apply (proj1 (proj2 (proj1 (proj2 parse_version_by_components)
                           "banana" 0%nat ["banana"] S2))).
    left. reflexivity.
Defined.

(** ** The sitemap: base URL and entry URLs *)

(** C8, as stated, fails: a base URL that ends in two slashes is left
    as it is. *)
Lemma base_url_keeps_double_slash :
  ~ (forall base_url, one_trailing_slash (normalize_base_url base_url)).
Proof.
  intros H. destruct (H "https://higher-kinded-j.github.io//") as [_ H2].
  vm_compute in H2. discriminate.
Qed.

(** C8, amended: the normalized base URL ends with a slash; it is the
    given URL when that ends with a slash, and the given URL with one
    slash added otherwise, so it ends with a single slash whenever the
    given URL does not end with two. *)
Theorem normalize_base_url_trailing_slash (base_url : string) :
  PyStr.endswith (normalize_base_url base_url) "/" = true
  /\ (PyStr.endswith base_url "/" = true -> normalize_base_url base_url = base_url)
  /\ (PyStr.endswith base_url "/" = false -> normalize_base_url base_url = base_url ++ "/")
  /\ (PyStr.endswith base_url "//" = false ->
      one_trailing_slash (normalize_base_url base_url)).
Proof.
  unfold normalize_base_url, one_trailing_slash.
  destruct (PyStr.endswith base_url "/") eqn:E; simpl negb; cbv iota.
  - repeat split; auto; discriminate.
  - assert (H1 : PyStr.endswith (base_url ++ "/") "/" = true)
      by apply StrFacts.endswith_app.
    repeat split; auto; try discriminate.
    destruct (PyStr.endswith (base_url ++ "/") "//") eqn:E2; [ | reflexivity].
    apply StrFacts.endswith_inv in E2. destruct E2 as [p Hp].
    change "//" with ("/" ++ "/") in Hp. rewrite <- StrFacts.app_assoc in Hp.
    apply StrFacts.app_inv_tail in Hp. subst base_url.
    now rewrite StrFacts.endswith_app in E.
Qed.

Lemma normalize_base_url_trailing_slash_witness :
  one_trailing_slash (normalize_base_url "https://higher-kinded-j.github.io").
Proof.
  apply (normalize_base_url_trailing_slash "https://higher-kinded-j.github.io").
  reflexivity.
Defined.

Section Urls.
Variable base_url : string.

Lemma file_url_relpath (root : list string) (file : string) :
  file_url base_url root file = base_url ++ relpath root file.
Proof.
  unfold file_url, os_path_sep.
  change "/" with (String "/"%char "") at 1 2.
  now rewrite SplitJoin.replace_same, SplitJoin.join_split.
Qed.

(** The URL of a wanted file: the base URL and then a path that is
    not empty and ends in [.html]. *)
Lemma wanted_file_url (root : list string) (file : string) :
  wanted file = true ->
  exists rel,
    file_url base_url root file = base_url ++ rel
    /\ PyStr.endswith rel ".html" = true
    /\ (5 <= String.length rel)%nat.
Proof.
  intros Hw. apply andb_true_iff in Hw. destruct Hw as [Hh _].
  exists (relpath root file). split; [apply file_url_relpath | ].
  assert (He : PyStr.endswith (relpath root file) ".html" = true).
  { unfold relpath, os_path_sep.
    destruct (SplitJoin.join_last "/" root file) as [p ->].
    now apply StrFacts.endswith_app_r. }
  split; [exact He | ].
  apply StrFacts.endswith_inv in He. destruct He as [q ->].
  rewrite StrFacts.length_app. simpl. lia.
Qed.

Local Abbreviation page := (page base_url).
Local Abbreviation visit := (visit base_url).

Lemma visit_files (root : list string) (files : list string) :
  flat_map (fun file => if wanted file then [file_url base_url root file] else []) files
  = map page (filter keep (map (pair root) files)).
Proof.
  induction files as [|f files IH]; simpl; [reflexivity | ].
  unfold keep at 1. simpl. destruct (wanted f); simpl; now rewrite IH.
Qed.

Lemma tree_induction (P : tree -> Prop) :
  (forall name files subdirs, Forall P subdirs -> P (Dir name files subdirs)) ->
  forall t, P t.
Proof.
  intros H. fix IH 1. intros [name files subdirs]. apply H.
  induction subdirs as [|d subdirs IHs]; constructor; [apply IH | exact IHs].
Qed.

Lemma walk_files (t : tree) :
  forall root,
    flat_map visit (os_walk root t) = map page (filter keep (tree_files root t)).
Proof.
  induction t as [name files subdirs IH] using tree_induction. intros root.
  simpl os_walk. simpl tree_files. simpl flat_map.
  rewrite filter_app, map_app, visit_files. f_equal.
  induction subdirs as [|d subdirs IHs]; [reflexivity | ].
  inversion IH as [|? ? Hd Hs]; subst.
  simpl flat_map. rewrite flat_map_app, filter_app, map_app.
  now rewrite Hd, (IHs Hs).
Qed.

(** The list [urls]: one URL for each wanted file of the tree, in the
    order of the walk. *)
Lemma collect_urls_files (t : tree) :
  collect_urls base_url t = map page (filter keep (tree_files [] t)).
Proof. apply (walk_files t []). Qed.

Lemma collect_urls_in (t : tree) (url : string) :
  In url (collect_urls base_url t) ->
  exists root file,
    In (root, file) (tree_files [] t) /\ wanted file = true
    /\ url = file_url base_url root file.
Proof.
  rewrite collect_urls_files. intros H.
  apply in_map_iff in H. destruct H as [[root file] [E H]].
  apply filter_In in H. destruct H as [Hin Hw].
  exists root, file. repeat split; [exact Hin | exact Hw | now rewrite <- E].
Qed.

Lemma entry_not_stripped_base (t : tree) (url : string) :
  In url (collect_urls base_url t) ->
  (String.length base_url < String.length url)%nat
  /\ String.eqb url (PyStr.rstrip "/" base_url) = false.
Proof.
  intros H. destruct (collect_urls_in t url H) as [root [file [_ [Hw ->]]]].
  destruct (wanted_file_url root file Hw) as [rel [-> [_ Hlen]]].
  assert (L : (String.length base_url < String.length (base_url ++ rel))%nat)
    by (rewrite StrFacts.length_app; lia).
  split; [exact L | ].
  apply String.eqb_neq. intros E. rewrite E in L.
  pose proof (StrFacts.rstrip_length "/" base_url). lia.
Qed.

End Urls.

(** C10: every URL of the sitemap is the normalized base URL followed by
    a path that is not empty and ends in [.html]; it is longer than the
    base URL and so is never the base URL without its trailing slashes,
    which the test for the priority 1.0 compares it with. *)
Theorem entry_url_extends_base (base_url : string) (start_dir : tree) (url : string) :
  In url (collect_urls (normalize_base_url base_url) start_dir) ->
  (exists rel,
      url = normalize_base_url base_url ++ rel
      /\ rel <> ""
      /\ PyStr.endswith rel ".html" = true)
  /\ (String.length (normalize_base_url base_url) < String.length url)%nat
  /\ String.eqb url (PyStr.rstrip "/" (normalize_base_url base_url)) = false.
Proof.
  intros H. split; [ | now apply (entry_not_stripped_base _ start_dir)].
  destruct (collect_urls_in _ start_dir url H) as [root [file [_ [Hw ->]]]].
  destruct (wanted_file_url (normalize_base_url base_url) root file Hw)
    as [rel [E [He Hlen]]].
  exists rel. repeat split; [exact E | | exact He].
  intros ->. simpl in Hlen. lia.
Qed.

Lemma entry_url_extends_base_witness :
  String.eqb "https://higher-kinded-j.github.io/sub/page.html"
    (PyStr.rstrip "/" (normalize_base_url "https://higher-kinded-j.github.io")) = false.
Proof.
  apply (entry_url_extends_base "https://higher-kinded-j.github.io"
           (Dir "book" ["index.html"; "404.html"] [Dir "sub" ["page.html"] []])).
  vm_compute. right. left. reflexivity.
Defined.

(** ** The sitemap: priorities *)

Module PriorityFacts.

Lemma startswith_app (p rest : string) : PyStr.startswith (p ++ rest) p = true.
Proof.
  induction p as [|a p IH]; simpl; [reflexivity | ].
  now rewrite Ascii.eqb_refl, IH.
Qed.

Lemma contains_unfold (s p : string) :
  PyStr.contains s p
  = if PyStr.startswith s p then true
    else match s with
         | EmptyString => false
         | String _ r => PyStr.contains r p
         end.
Proof. destruct s; reflexivity. Qed.

Lemma contains_app (q p rest : string) : PyStr.contains (q ++ p ++ rest) p = true.
Proof.
  induction q as [|a q IH]; simpl append.
  - rewrite contains_unfold. now rewrite startswith_app.
  - rewrite contains_unfold. destruct (PyStr.startswith _ p); [reflexivity | exact IH].
Qed.

(** What ends a string occurs in it. *)
Lemma endswith_contains (s p : string) :
  PyStr.endswith s p = true -> PyStr.contains s p = true.
Proof.
  intros H. apply StrFacts.endswith_inv in H. destruct H as [q ->].
  rewrite <- (StrFacts.app_nil_r p) at 1. apply contains_app.
Qed.

(** A string that ends in [core-concepts.html] ends neither in
    [index.html] nor in [home.html]. *)
Lemma core_concepts_not_landing (url : string) :
  PyStr.endswith url "core-concepts.html" = true ->
  PyStr.endswith url "index.html" = false
  /\ PyStr.endswith url "home.html" = false.
Proof.
  intros H. split.
  - destruct (PyStr.endswith url "index.html") eqn:E; [ | reflexivity].
    pose proof (StrFacts.endswith_both url _ _ H E) as B.
    vm_compute in B. symmetry. apply B. repeat constructor.
  - destruct (PyStr.endswith url "home.html") eqn:E; [ | reflexivity].
    pose proof (StrFacts.endswith_both url _ _ H E) as B.
    vm_compute in B. symmetry. apply B. repeat constructor.
Qed.

Lemma priority_by_table (url base_url : string) :
  priority url base_url = first_match (priority_rules base_url) "0.5" url.
Proof. reflexivity. Qed.

End PriorityFacts.

(** C7, as stated, fails: a page [core-concepts.html] below
    [effect/ch_intro.html/] matches the key page rule first and gets
    0.9. *)
Lemma core_concepts_under_key_page :
  ~ (forall base_url start_dir url,
        In url (collect_urls (normalize_base_url base_url) start_dir) ->
        PyStr.endswith url "core-concepts.html" = true ->
        priority url (normalize_base_url base_url) = "0.8").
Proof.
  intros H.
  specialize (H "https://higher-kinded-j.github.io/"
                (Dir "book" ["index.html"]
                   [Dir "effect" [] [Dir "ch_intro.html" ["core-concepts.html"] []]])
                "https://higher-kinded-j.github.io/effect/ch_intro.html/core-concepts.html").
  assert (E : "0.9" = "0.8"); [ | discriminate E].
  apply H.
  - vm_compute. right. left. reflexivity.
  - reflexivity.
Qed.

(** C7, amended: the priority of an entry is that of the first rule of
    the table that matches, 0.5 when none does.  A URL that ends in
    [index.html] gets 1.0; one that ends in [core-concepts.html] gets
    0.8 when it holds none of the key page fragments, which the rule
    before would match; one that no rule matches gets 0.5. *)
Theorem priority_first_match (base_url : string) (start_dir : tree) (url : string) :
  In url (collect_urls (normalize_base_url base_url) start_dir) ->
  let base := normalize_base_url base_url in
  priority url base = first_match (priority_rules base) "0.5" url
  /\ (PyStr.endswith url "index.html" = true -> priority url base = "1.0")
  /\ (PyStr.endswith url "core-concepts.html" = true ->
      any_in url key_pages = false ->
      priority url base = "0.8")
  /\ (no_rule_matches base url -> priority url base = "0.5").
Proof.
  intros Hin base. split; [apply PriorityFacts.priority_by_table | split; [ | split]].
  - intros H. unfold priority. now rewrite H.
  - intros Hc Hk.
    destruct (PriorityFacts.core_concepts_not_landing url Hc) as [Hi Hh].
    destruct (entry_not_stripped_base base start_dir url Hin) as [_ Hb].
    unfold priority. rewrite Hi, Hh, Hb, Hk. simpl orb. cbv iota.
    assert (Hcore : any_in url core_pages = true).
    { unfold any_in, core_pages. simpl existsb.
      now rewrite (PriorityFacts.endswith_contains url _ Hc). }
    now rewrite Hcore.
  - intros Hn. unfold no_rule_matches, priority_rules in Hn.
    repeat (apply Forall_cons_iff in Hn; destruct Hn as [?H Hn]).
    cbv beta iota delta [fst] in *. unfold priority.
    repeat match goal with
           | H : _ = false |- _ => rewrite H; clear H
           end.
    reflexivity.
Qed.

Lemma priority_first_match_witness :
  priority "https://higher-kinded-j.github.io/core-concepts.html"
    (normalize_base_url "https://higher-kinded-j.github.io") = "0.8"
  /\ priority "https://higher-kinded-j.github.io/index.html"
       (normalize_base_url "https://higher-kinded-j.github.io") = "1.0".
Proof.
  split.
  - apply (priority_first_match "https://higher-kinded-j.github.io"
             (Dir "book" ["index.html"; "core-concepts.html"] [])
             "https://higher-kinded-j.github.io/core-concepts.html").
    + vm_compute. right. left. reflexivity.
    + reflexivity.
    + reflexivity.
  - apply (priority_first_match "https://higher-kinded-j.github.io"
             (Dir "book" ["index.html"; "core-concepts.html"] [])
             "https://higher-kinded-j.github.io/index.html").
    + vm_compute. left. reflexivity.
    + reflexivity.
Defined.

(** ** The sitemap: which files are listed *)

Module WalkFacts.

Lemma well_formed_inv (name : string) (files : list string) (subdirs : list tree) :
  well_formed (Dir name files subdirs) ->
  Forall (free_of "/") files
  /\ NoDup files
  /\ Forall (fun d => free_of "/" (dir_name d)) subdirs
  /\ NoDup (map dir_name subdirs)
  /\ Forall well_formed subdirs.
Proof.
  simpl. intros [H1 [H2 [H3 [H4 H5]]]]. repeat split; try assumption.
  induction subdirs as [|d subdirs IH]; [constructor | ].
  simpl in H5. destruct H5 as [Hd Hs]. constructor; [exact Hd | ].
  apply IH; [now inversion H3 | now inversion H4 | exact Hs].
Qed.

(** The files found below the subdirectories lie in one of them. *)
Lemma below_subdirs (root : list string) (subdirs : list tree) (r : list string) (f : string) :
  Forall (fun d => forall root r f,
              In (r, f) (tree_files root d) -> exists rest, r = root ++ rest)%list
         subdirs ->
  In (r, f) (flat_map (fun d => tree_files (root ++ [dir_name d]) d) subdirs)%list ->
  exists d rest, In d subdirs /\ r = (root ++ dir_name d :: rest)%list
                 /\ In (r, f) (tree_files (root ++ [dir_name d]) d)%list.
Proof.
  intros IH H. apply in_flat_map in H. destruct H as [d [Hd H]].
  rewrite Forall_forall in IH. destruct (IH d Hd _ _ _ H) as [rest E].
  exists d, rest. split; [exact Hd | split; [ | exact H]].
  rewrite E, <- app_assoc. reflexivity.
Qed.

Lemma tree_files_root (t : tree) :
  forall root r f, In (r, f) (tree_files root t) -> exists rest, r = (root ++ rest)%list.
Proof.
  induction t as [name files subdirs IH] using tree_induction.
  intros root r f H. simpl in H. apply in_app_or in H. destruct H as [H|H].
  - apply in_map_iff in H. destruct H as [x [E _]]. injection E as <- _.
    exists []. now rewrite app_nil_r.
  - destruct (below_subdirs root subdirs r f IH H) as [d [rest [_ [E _]]]].
    exists (dir_name d :: rest). exact E.
Qed.

Lemma tree_files_free (t : tree) :
  well_formed t ->
  forall root r f,
    Forall (free_of "/") root -> In (r, f) (tree_files root t) ->
    Forall (free_of "/") r /\ free_of "/" f.
Proof.
  induction t as [name files subdirs IH] using tree_induction.
  intros Hwf root r f Hroot H.
  apply well_formed_inv in Hwf. destruct Hwf as [Hf [_ [Hn [_ Hsub]]]].
  simpl in H. apply in_app_or in H. destruct H as [H|H].
  - apply in_map_iff in H. destruct H as [x [E Hx]]. injection E as <- <-.
    split; [exact Hroot | ]. rewrite Forall_forall in Hf. now apply Hf.
  - apply in_flat_map in H. destruct H as [d [Hd H]].
    rewrite Forall_forall in IH, Hn, Hsub.
    apply (IH d Hd (Hsub d Hd) (root ++ [dir_name d])%list); [ | exact H].
    apply Forall_app. split; [exact Hroot | ].
    constructor; [now apply Hn | constructor].
Qed.

Lemma pair_root_nodup (root : list string) (files : list string) :
  NoDup files -> NoDup (map (pair root) files).
Proof.
  induction 1 as [|f files Hf _ IH]; simpl; constructor; [ | exact IH].
  intros H. apply in_map_iff in H. destruct H as [x [E Hx]].
  injection E as ->. contradiction.
Qed.

Lemma tree_files_nodup (t : tree) :
  well_formed t -> forall root, NoDup (tree_files root t).
Proof.
  induction t as [name files subdirs IH] using tree_induction.
  intros Hwf root.
  apply well_formed_inv in Hwf. destruct Hwf as [_ [Hf [_ [Hn Hsub]]]].
  assert (Hroots : Forall (fun d => forall root r f,
                               In (r, f) (tree_files root d) ->
                               exists rest, r = (root ++ rest)%list) subdirs).
  { apply Forall_forall. intros d _. apply tree_files_root. }
  simpl. apply NoDup_app.
  - now apply pair_root_nodup.
  - clear Hf files. induction subdirs as [|d subdirs IHs]; [constructor | ].
    inversion IH as [|? ? IHd IHrest]; subst.
    inversion Hsub as [|? ? Hd Hrest]; subst.
    inversion Hn as [|? ? Hnew Hnames]; subst.
    inversion Hroots as [|? ? _ Hroots']; subst.
    simpl. apply NoDup_app.
    + now apply IHd.
    + now apply IHs.
    + intros [r f] H1 H2.
      destruct (tree_files_root d _ _ _ H1) as [rest1 E1].
      destruct (below_subdirs root subdirs r f Hroots' H2) as [d' [rest2 [Hd' [E2 _]]]].
      rewrite E1, <- app_assoc in E2. apply app_inv_head in E2.
      injection E2 as E2 _. apply Hnew. rewrite E2. now apply in_map.
  - intros [r f] H1 H2.
    apply in_map_iff in H1. destruct H1 as [x [E _]]. injection E as <- _.
    destruct (below_subdirs root subdirs root f Hroots H2) as [d [rest [_ [E _]]]].
    rewrite <- (app_nil_r root) in E at 1. apply app_inv_head in E. discriminate E.
Qed.

(** Files of a well formed tree at different places have different
    URLs. *)
Lemma file_url_injective (base : string) (t : tree) (r1 r2 : list string) (f1 f2 : string) :
  well_formed t ->
  In (r1, f1) (tree_files [] t) -> In (r2, f2) (tree_files [] t) ->
  file_url base r1 f1 = file_url base r2 f2 ->
  (r1, f1) = (r2, f2).
Proof.
  intros Hwf H1 H2 E.
  rewrite !file_url_relpath in E. apply StrFacts.app_inv_head in E.
  destruct (tree_files_free t Hwf [] r1 f1 (Forall_nil _) H1) as [Fr1 Ff1].
  destruct (tree_files_free t Hwf [] r2 f2 (Forall_nil _) H2) as [Fr2 Ff2].
  unfold relpath, os_path_sep in E.
  apply SplitJoin.join_injective in E.
  - apply app_inj_tail in E. destruct E as [-> ->]. reflexivity.
  - destruct r1; discriminate.
  - destruct r2; discriminate.
  - apply Forall_app. split; [exact Fr1 | now constructor].
  - apply Forall_app. split; [exact Fr2 | now constructor].
Qed.

Lemma count_occ_map_filter {A : Type} (f : A -> string) (p : A -> bool)
    (l : list A) (x : A) :
  NoDup l -> In x l ->
  (forall y, In y l -> f y = f x -> y = x) ->
  count_occ string_dec (map f (filter p l)) (f x) = if p x then 1%nat else 0%nat.
Proof.
  induction 1 as [|a l Ha Hl IH]; intros Hx Hinj; [contradiction | ].
  assert (Hnone : ~ In x l ->
                  count_occ string_dec (map f (filter p l)) (f x) = 0%nat).
  { intros Hnot. apply count_occ_not_In. intros H.
    apply in_map_iff in H. destruct H as [y [E Hy]].
    apply filter_In in Hy. destruct Hy as [Hy _].
    apply Hnot. rewrite <- (Hinj y (or_intror Hy) E). exact Hy. }
  destruct Hx as [->|Hx].
  - simpl. destruct (p x); simpl.
    + destruct (string_dec (f x) (f x)); [ | congruence]. now rewrite (Hnone Ha).
    + now apply Hnone.
  - assert (Hne : f a <> f x).
    { intros E. apply Ha. rewrite (Hinj a (or_introl eq_refl) E). exact Hx. }
    assert (IH' : count_occ string_dec (map f (filter p l)) (f x)
                  = if p x then 1%nat else 0%nat).
    { apply IH; [exact Hx | ]. intros y Hy. apply Hinj. now right. }
    simpl. destruct (p a); simpl; [ | exact IH'].
    destruct (string_dec (f a) (f x)); [contradiction | exact IH'].
Qed.

Lemma insert_sorted_perm (x : string) (l : list string) :
  Permutation (insert_sorted x l) (x :: l).
Proof.
  induction l as [|y r IH]; simpl; [apply Permutation_refl | ].
  destruct (PyStr.lt y x); [ | apply Permutation_refl].
  eapply perm_trans; [apply perm_skip, IH | apply perm_swap].
Qed.

Lemma sorted_perm (l : list string) : Permutation (sorted l) l.
Proof.
  induction l as [|x r IH]; simpl; [apply perm_nil | ].
  eapply perm_trans; [apply insert_sorted_perm | now apply perm_skip].
Qed.

(** The document is the header, one element for each URL in sorted
    order, and the closing tag. *)
Lemma fold_append (f : string -> string) (l : list string) (init : string) :
  fold_left (fun content url => content ++ f url) l init
  = init ++ String.concat "" (map f l).
Proof.
  revert init. induction l as [|x r IH]; intros init; simpl fold_left.
  - simpl. now rewrite StrFacts.app_nil_r.
  - rewrite IH, StrFacts.app_assoc. f_equal.
    destruct r as [|y r]; [simpl; now rewrite StrFacts.app_nil_r | reflexivity].
Qed.

Lemma sitemap_content_elements (base today : string) (urls : list string) :
  sitemap_content base today urls
  = sitemap_header
    ++ String.concat "" (map (url_element base today) (sorted urls))
    ++ "</urlset>" ++ nl.
Proof.
  unfold sitemap_content. now rewrite fold_append, StrFacts.app_assoc.
Qed.

End WalkFacts.

(** C6: the URLs of the sitemap are those of the wanted files of the
    tree, one for each, where a file is wanted when its name ends in
    [.html] and is neither [404.html] nor [print.html]; the document
    written has one element for each of them, in sorted order.  In a
    tree as a file system has it, the URL of a wanted file occurs
    exactly once among the sorted entries and that of any other file,
    the excluded ones among them, does not occur. *)
Theorem sitemap_lists_each_page_once (base_url : string) (start_dir : tree) :
  let base := normalize_base_url base_url in
  let urls := collect_urls base start_dir in
  urls = map (page base) (filter keep (tree_files [] start_dir))
  /\ (forall file,
         wanted file = true
         <-> PyStr.endswith file ".html" = true
             /\ file <> "404.html" /\ file <> "print.html")
  /\ (forall today,
         sitemap_content base today urls
         = sitemap_header
           ++ String.concat "" (map (url_element base today) (sorted urls))
           ++ "</urlset>" ++ nl)
  /\ (well_formed start_dir ->
      forall root file,
        In (root, file) (tree_files [] start_dir) ->
        count_occ string_dec (sorted urls) (file_url base root file)
        = if wanted file then 1%nat else 0%nat).
Proof.
  intros base urls.
  assert (E : urls = map (page base) (filter keep (tree_files [] start_dir)))
    by apply collect_urls_files.
  split; [exact E | split; [ | split]].
  - intros file. unfold wanted, str_in, excluded_files. simpl existsb.
    rewrite andb_true_iff, negb_true_iff, !orb_false_iff, !String.eqb_neq.
    tauto.
  - intros today. apply WalkFacts.sitemap_content_elements.
  - intros Hwf root file Hin.
    rewrite (proj1 (Permutation_count_occ string_dec _ _) (WalkFacts.sorted_perm urls)).
    rewrite E.
    apply (WalkFacts.count_occ_map_filter (page base) keep
             (tree_files [] start_dir) (root, file)).
    + now apply WalkFacts.tree_files_nodup.
    + exact Hin.
    + intros [r f] Hy Hu. simpl in Hu.
      now apply (WalkFacts.file_url_injective base start_dir).
Qed.

Lemma sitemap_lists_each_page_once_witness :
  count_occ string_dec
    (sorted (collect_urls (normalize_base_url "https://higher-kinded-j.github.io")
               (Dir "book" ["index.html"; "404.html"] [Dir "sub" ["page.html"] []])))
    (file_url (normalize_base_url "https://higher-kinded-j.github.io") ["sub"] "page.html")
  = 1%nat.
Proof.
  apply (proj2 (proj2 (proj2
           (sitemap_lists_each_page_once "https://higher-kinded-j.github.io"
              (Dir "book" ["index.html"; "404.html"] [Dir "sub" ["page.html"] []]))))).
  - simpl. repeat split; repeat constructor; simpl; intuition discriminate.
  - vm_compute. right. right. left. reflexivity.
Defined.

(** ** Paths *)

Module PathFacts.

Lemma dirname_head_free (b : string) : free_of "/" b -> dirname_head b = "".
Proof. unfold free_of. destruct b as [|a r]; [reflexivity | ]. simpl. now intros ->. Qed.

Lemma dirname_head_app (a b : string) :
  free_of "/" b -> dirname_head (a ++ "/" ++ b) = a ++ "/".
Proof.
  intros Hb. induction a as [|c a IH].
  - simpl. now rewrite (dirname_head_free b Hb).
  - change (String c a ++ "/" ++ b) with (String c (a ++ "/" ++ b)).
    unfold dirname_head at 1. fold dirname_head.
    assert (Hs : PyStr.char_in "/" (String c (a ++ "/" ++ b)) = true).
    { simpl. rewrite StrFacts.char_in_app. simpl. now rewrite !orb_true_r. }
    rewrite Hs, IH. reflexivity.
Qed.

Lemma rstrip_app_slash (s : string) : PyStr.rstrip "/" (s ++ "/") = PyStr.rstrip "/" s.
Proof.
  induction s as [|a s IH]; [reflexivity | ].
  simpl. now rewrite IH.
Qed.

Lemma rstrip_id (s : string) :
  PyStr.endswith s "/" = false -> PyStr.rstrip "/" s = s.
Proof.
  induction s as [|a s IH]; [reflexivity | ].
  rewrite StrFacts.endswith_unfold.
  destruct (String.eqb_spec (String a s) "/") as [E|E]; [discriminate | ].
  intros H. destruct s as [|b s].
  - change (PyStr.rstrip "/" (String a ""))
      with (if Ascii.eqb a "/" || false then "" else String a "").
    destruct (Ascii.eqb_spec a "/") as [->|Ha]; [contradiction | reflexivity].
  - change (PyStr.rstrip "/" (String a (String b s)))
      with (match PyStr.rstrip "/" (String b s) with
            | EmptyString => if PyStr.char_in a "/" then "" else String a ""
            | r' => String a r'
            end).
    now rewrite (IH H).
Qed.

(** The directory of the sitemap is the book directory without the
    slashes that end it, and the book directory itself when it is made
    of slashes only. *)
Lemma dirname_sitemap (dir : string) :
  dirname (path_join dir "sitemap.xml")
  = match PyStr.rstrip "/" dir with
    | EmptyString => dir
    | stripped => stripped
    end.
Proof.
  unfold path_join, dirname.
  destruct (String.eqb_spec dir "") as [->|Hne]; [reflexivity | ].
  destruct (PyStr.endswith dir "/") eqn:E; simpl orb; cbv iota.
  - apply StrFacts.endswith_inv in E. destruct E as [p ->].
    rewrite StrFacts.app_assoc, dirname_head_app by reflexivity. reflexivity.
  - rewrite dirname_head_app by reflexivity.
    rewrite rstrip_app_slash, (rstrip_id dir E).
    destruct dir; [contradiction | reflexivity].
Qed.

(** The sitemap of a book directory with a name has a directory part. *)
Lemma dirname_sitemap_named (dir : string) :
  dir <> "" -> String.eqb (dirname (path_join dir "sitemap.xml")) "" = false.
Proof.
  intros Hne. rewrite dirname_sitemap. apply String.eqb_neq.
  destruct (PyStr.rstrip "/" dir); [exact Hne | discriminate].
Qed.

Lemma isdir_named (os : OS) (dir : string) : isdir os dir = true -> dir <> "".
Proof. intros H ->. rewrite (isdir_empty os) in H. discriminate. Qed.

End PathFacts.

(** ** The main block of the sitemap script *)

Module MainFacts.

Lemma writes_app (a b : list event) : writes (a ++ b)%list = (writes a ++ writes b)%list.
Proof. apply flat_map_app. Qed.

Lemma writes_listing (prefix : string) (items : list string) :
  writes (listing prefix items) = [].
Proof. induction items as [|i items IH]; simpl; [reflexivity | exact IH]. Qed.

Lemma listing_in (prefix item : string) (items : list string) :
  In item items -> In (Print ("  - " ++ prefix ++ item)) (listing prefix items).
Proof.
  intros H. unfold listing.
  apply (in_map (fun item => Print ("  - " ++ prefix ++ item))). exact H.
Qed.

(** With a directory part in [output_file] the call makes sure of the
    directory, writes the document, prints the count and returns. *)
Lemma generate_sitemap_named (t : tree) (base_url output_file today : string) :
  String.eqb (dirname output_file) "" = false ->
  generate_sitemap t base_url output_file today
  = ([ MakeDirs (dirname output_file);
       WriteFile output_file
         (sitemap_content (normalize_base_url base_url) today
            (collect_urls (normalize_base_url base_url) t));
       Print ("Sitemap generated at " ++ output_file ++ " with "
              ++ str_of_nat (List.length (collect_urls (normalize_base_url base_url) t))
              ++ " URLs.") ],
     Returned).
Proof. intros H. unfold generate_sitemap. now rewrite H. Qed.

End MainFacts.

(** C9: when the directory of the book is no directory, the run prints
    the error and the entries of the current directory, writes no file
    and ends with status 1; otherwise it writes the sitemap, and only
    it, into that directory and ends with status 0. *)
Theorem main_exit_status (os : OS) :
  let dir := environ_get os "MDBOOK_OUTPUT_DIR" "hkj-book/book" in
  (isdir os dir = false ->
   snd (main os) = 1%Z
   /\ writes (fst (main os)) = []
   /\ In (Print ("Error: MDBOOK_OUTPUT_DIR '" ++ dir
                 ++ "' does not exist or is not a directory."))
         (fst (main os))
   /\ (forall item, In item (listdir os ".") ->
                    In (Print ("  - " ++ item)) (fst (main os))))
  /\ (isdir os dir = true ->
      snd (main os) = 0%Z
      /\ exists content,
           writes (fst (main os)) = [(path_join dir "sitemap.xml", content)]).
Proof.
  intros dir. unfold main. cbv zeta. fold dir.
  split; intros H; rewrite H;
    [ | rewrite MainFacts.generate_sitemap_named
          by now apply PathFacts.dirname_sitemap_named, (PathFacts.isdir_named os) ];
    cbv beta iota zeta delta [fst snd negb].
  - split; [reflexivity | split; [ | split]].
    + rewrite !MainFacts.writes_app, MainFacts.writes_listing.
      destruct (path_exists os "hkj-book"); [ | reflexivity].
      simpl. now rewrite MainFacts.writes_listing.
    + apply in_or_app. right. apply in_or_app. left. left. reflexivity.
    + intros item Hi.
      apply in_or_app. right. apply in_or_app. right. apply in_or_app. left.
      now apply (MainFacts.listing_in "").
  - split; [reflexivity | ].
    eexists. rewrite MainFacts.writes_app. reflexivity.
Qed.

Lemma main_exit_status_witness :
  snd (main (MkOS (fun _ => None) (fun _ => false) eq_refl (fun _ => false)
               (fun _ => ["README.md"; "pom.xml"]) "/home/runner/work"
               (fun p => "/home/runner/work/" ++ p)
               (fun _ => Dir "" [] []) "2026-01-05")) = 1%Z
  /\ snd (main (MkOS (fun _ => None) (fun p => negb (String.eqb p "")) eq_refl
                  (fun _ => true)
                  (fun _ => ["book"]) "/home/runner/work"
                  (fun p => "/home/runner/work/" ++ p)
                  (fun _ => Dir "book" ["index.html"] []) "2026-01-05")) = 0%Z.
Proof.
  split.
  - apply (proj1 (main_exit_status _)). reflexivity.
  - apply (proj2 (main_exit_status _)). reflexivity.
Defined.

(** * Further properties of the updater *)

Lemma filter_head_in {A : Type} (p : A -> bool) (l : list A) (x : A) (r : list A) :
  filter p l = x :: r -> In x l.
Proof.
  intros E. assert (H : In x (filter p l)) by (rewrite E; now left).
  apply filter_In in H. tauto.
Qed.

Section SortUnique.
Context {A : Type} (key : A -> list Z).

Lemma key_is_refl (a : A) : key_is key (key a) a = true.
Proof. unfold key_is. now rewrite TupleFacts.compare_refl. Qed.

Lemma key_is_eq (k : list Z) (a : A) : key_is key k a = true -> key a = k.
Proof.
  unfold key_is. destruct (PyTuple.compare (key a) k) eqn:E; try discriminate.
  intros _. now apply TupleFacts.compare_eq.
Qed.

Lemma key_is_unordered (k : list Z) (a b : A) :
  key_is key k a = true -> key_is key k b = true ->
  PyTuple.lt (key a) (key b) = false.
Proof.
  intros Ha Hb. apply key_is_eq in Ha, Hb. rewrite Ha, Hb.
  unfold PyTuple.lt. now rewrite TupleFacts.compare_refl.
Qed.

Lemma key_ge_antisym (a b : A) :
  key_ge key a b -> key_ge key b a -> key a = key b.
Proof.
  unfold key_ge. rewrite !TupleFacts.le_iff. intros H1 H2.
  rewrite (TupleFacts.compare_antisym (key a) (key b)) in H1.
  apply TupleFacts.compare_eq.
  destruct (PyTuple.compare (key a) (key b)); simpl in *; congruence.
Qed.

Lemma sorted_head_ge (x : A) (l : list A) (y : A) :
  StronglySorted (key_ge key) (x :: l) -> In y (x :: l) -> key_ge key x y.
Proof.
  intros Hs [<-|Hy].
  - apply TupleFacts.le_refl.
  - apply StronglySorted_inv in Hs. destruct Hs as [_ Hx].
    rewrite Forall_forall in Hx. now apply Hx.
Qed.

(** Two lists in descending order that hold the same elements of each
    key in the same order are the same list. *)
Lemma sorted_unique (l1 : list A) :
  forall l2,
    StronglySorted (key_ge key) l1 -> StronglySorted (key_ge key) l2 ->
    (forall k, filter (key_is key k) l1 = filter (key_is key k) l2) ->
    l1 = l2.
Proof.
  induction l1 as [|x r1 IH]; intros [|y r2] S1 S2 H; [reflexivity | | | ].
  - specialize (H (key y)). simpl in H. rewrite key_is_refl in H. discriminate.
  - specialize (H (key x)). simpl in H. rewrite key_is_refl in H. discriminate.
  - assert (Hx : In x (y :: r2)).
    { apply (filter_head_in (key_is key (key x)) _ x (filter (key_is key (key x)) r1)).
      rewrite <- H. simpl. now rewrite key_is_refl. }
    assert (Hy : In y (x :: r1)).
    { apply (filter_head_in (key_is key (key y)) _ y (filter (key_is key (key y)) r2)).
      rewrite H. simpl. now rewrite key_is_refl. }
    assert (K : key x = key y).
    { apply key_ge_antisym;
        [now apply (sorted_head_ge x r1) | now apply (sorted_head_ge y r2)]. }
    assert (E : x = y).
    { assert (Ky : key_is key (key x) y = true) by (rewrite K; apply key_is_refl).
      specialize (H (key x)). simpl in H. rewrite key_is_refl, Ky in H.
      now injection H. }
    subst y. f_equal.
    apply StronglySorted_inv in S1, S2.
    apply IH; [tauto | tauto | ].
    intros k. specialize (H k). simpl in H.
    destruct (key_is key k x); [now injection H | exact H].
Qed.

End SortUnique.

Lemma registry_eq (a b : Registry) :
  latest a = latest b -> stable a = stable b -> versions a = versions b -> a = b.
Proof. destruct a, b. simpl. intros -> -> ->. reflexivity. Qed.

Lemma filter_swap {A : Type} (p q : A -> bool) (l : list A) :
  filter p (filter q l) = filter q (filter p l).
Proof.
  induction l as [|x l IH]; [reflexivity | ].
  simpl. destruct (p x) eqn:P, (q x) eqn:Q; simpl; rewrite ?P, ?Q, IH; reflexivity.
Qed.

Lemma filter_twice {A : Type} (p : A -> bool) (l : list A) :
  filter p (filter p l) = filter p l.
Proof.
  induction l as [|x l IH]; [reflexivity | ].
  simpl. destruct (p x) eqn:P; simpl; rewrite ?P, IH; reflexivity.
Qed.

Section ReleaseFacts.
Variables (data : Registry) (version version_label current_time : string).
Hypothesis release : version <> "latest".

Local Abbreviation updated := (update_data data version version_label current_time).
Local Abbreviation new_entry := (version_entry version version_label current_time).

Lemma release_latest : latest updated = latest data.
Proof.
  apply String.eqb_neq in release. unfold update_data. now rewrite release.
Qed.

Lemma release_stable :
  stable updated = match versions updated with
                   | [] => None
                   | first :: _ => Some (Release.version first)
                   end.
Proof. apply update_stable_invariant. intros E. contradiction. Qed.

(** The records of one key after a release update: those that were
    kept, in their order, and then the new record if it has the key. *)
Lemma release_class (k : list Z) :
  filter (key_is sort_key k) (versions updated)
  = (filter (key_is sort_key k) (without_version version (versions data))
     ++ filter (key_is sort_key k) [new_entry])%list.
Proof.
  rewrite (update_release_versions _ _ _ _ release).
  rewrite sort_reverse_stable; [apply filter_app | ].
  intros a b. apply key_is_unordered.
Qed.

Lemma without_new_entry (v : string) :
  without_version v [new_entry] = if String.eqb version v then [] else [new_entry].
Proof. unfold without_version. simpl. now destruct (String.eqb version v). Qed.

End ReleaseFacts.

Lemma without_version_app (v : string) (l1 l2 : list Release.t) :
  without_version v (l1 ++ l2)%list = (without_version v l1 ++ without_version v l2)%list.
Proof. apply filter_app. Qed.

(** The records of one key when the records of a version are dropped
    from the result of a release update of another or the same
    version. *)
Lemma release_class_without (data : Registry) (v l t w : string) (k : list Z) :
  v <> "latest" ->
  filter (key_is sort_key k) (without_version w (versions (update_data data v l t)))
  = (filter (key_is sort_key k) (without_version w (without_version v (versions data)))
     ++ filter (key_is sort_key k)
          (if String.eqb v w then [] else [version_entry v l t]))%list.
Proof.
  intros Hv. unfold without_version at 1. rewrite filter_swap.
  fold (without_version w (filter (key_is sort_key k) (versions (update_data data v l t)))).
  rewrite (release_class data v l t Hv k), without_version_app.
  f_equal.
  - unfold without_version at 1. rewrite filter_swap. reflexivity.
  - unfold without_version at 1. rewrite filter_swap.
    fold (without_version w [version_entry v l t]).
    now rewrite without_new_entry.
Qed.

(** X1: the last update of a version decides.  Running the updater a
    second time for the same version, or a second time in snapshot mode,
    leaves the document that the second run alone would have written,
    whatever the first run's label and time were. *)
Theorem last_update_wins (file : option Registry) (v l1 t1 l2 t2 : string) :
  fst (update_versions_file (Some (fst (update_versions_file file v l1 t1))) v l2 t2)
  = fst (update_versions_file file v l2 t2).
Proof.
  simpl. set (data := load_versions file).
  destruct (String.eqb_spec v "latest") as [->|Hv].
  - destruct data as [[p lb vs up] st vs']. reflexivity.
  - assert (V : versions (update_data (update_data data v l1 t1) v l2 t2)
                = versions (update_data data v l2 t2)).
    { apply (sorted_unique sort_key).
      - now apply update_release_sorted.
      - now apply update_release_sorted.
      - intros k. rewrite !release_class by exact Hv. f_equal.
        rewrite (release_class_without data v l1 t1 v k Hv), String.eqb_refl.
        simpl. rewrite app_nil_r. unfold without_version. now rewrite filter_twice. }
    apply registry_eq; [ | | exact V].
    + now rewrite !release_latest.
    + rewrite !release_stable by exact Hv. now rewrite V.
Qed.

(** X2: release updates of two versions with different sort keys
    commute: the document does not depend on which of the two was
    deployed first. *)
Theorem release_updates_commute (file : option Registry) (v1 l1 t1 v2 l2 t2 : string) :
  v1 <> "latest" -> v2 <> "latest" ->
  parse_version v1 <> parse_version v2 ->
  fst (update_versions_file (Some (fst (update_versions_file file v1 l1 t1))) v2 l2 t2)
  = fst (update_versions_file (Some (fst (update_versions_file file v2 l2 t2))) v1 l1 t1).
Proof.
  intros H1 H2 Hk. simpl. set (data := load_versions file).
  assert (Hne : v1 <> v2) by (intros ->; now apply Hk).
  assert (V : versions (update_data (update_data data v1 l1 t1) v2 l2 t2)
              = versions (update_data (update_data data v2 l2 t2) v1 l1 t1)).
  { apply (sorted_unique sort_key).
    - now apply update_release_sorted.
    - now apply update_release_sorted.
    - intros k. rewrite !release_class by assumption.
      rewrite (release_class_without data v1 l1 t1 v2 k H1).
      rewrite (release_class_without data v2 l2 t2 v1 k H2).
      rewrite (proj2 (String.eqb_neq v1 v2) Hne).
      rewrite (proj2 (String.eqb_neq v2 v1) (not_eq_sym Hne)).
      rewrite <- !app_assoc. f_equal.
      + f_equal. unfold without_version. apply filter_swap.
      + simpl.
        destruct (key_is sort_key k (version_entry v1 l1 t1)) eqn:K1;
          destruct (key_is sort_key k (version_entry v2 l2 t2)) eqn:K2;
          try reflexivity.
        apply key_is_eq in K1, K2. exfalso. apply Hk.
        unfold sort_key in K1, K2. simpl in K1, K2. congruence. }
  apply registry_eq; [ | | exact V].
  - now rewrite !release_latest.
  - rewrite !release_stable by assumption. now rewrite V.
Qed.

Lemma release_updates_commute_witness :
  fst (update_versions_file
         (Some (fst (update_versions_file None "v0.1.9" "old" "t1"))) "v0.1.10" "new" "t2")
  = fst (update_versions_file
           (Some (fst (update_versions_file None "v0.1.10" "new" "t2"))) "v0.1.9" "old" "t1").
Proof.
  apply release_updates_commute; [discriminate | discriminate | ].
  vm_compute. discriminate.
Defined.

(** X3: a snapshot update and a release update commute; the one touches
    only [latest], the other only [stable] and [versions]. *)
Theorem snapshot_and_release_commute (file : option Registry) (v l t ls ts : string) :
  v <> "latest" ->
  fst (update_versions_file (Some (fst (update_versions_file file "latest" ls ts))) v l t)
  = fst (update_versions_file (Some (fst (update_versions_file file v l t))) "latest" ls ts).
Proof.
  intros Hv. simpl. set (data := load_versions file).
  apply String.eqb_neq in Hv. unfold update_data. rewrite Hv.
  change (String.eqb "latest" "latest") with true. cbv iota. reflexivity.
Qed.

Lemma snapshot_and_release_commute_witness :
  fst (update_versions_file
         (Some (fst (update_versions_file None "latest" "Latest" "t1"))) "v0.1.9" "v0.1.9" "t2")
  = fst (update_versions_file
           (Some (fst (update_versions_file None "v0.1.9" "v0.1.9" "t2"))) "latest" "Latest" "t1").
Proof. apply snapshot_and_release_commute. discriminate. Defined.

Lemma without_absent (v : string) (l : list Release.t) :
  ~ In v (map Release.version l) -> without_version v l = l.
Proof.
  induction l as [|a l IH]; [reflexivity | ].
  simpl. intros H.
  destruct (String.eqb_spec (Release.version a) v) as [E|E]; simpl.
  - exfalso. apply H. now left.
  - f_equal. apply IH. intros Hin. apply H. now right.
Qed.

Lemma without_present_length (v : string) (l : list Release.t) :
  NoDup (map Release.version l) -> In v (map Release.version l) ->
  S (List.length (without_version v l)) = List.length l.
Proof.
  induction l as [|a l IH]; simpl; intros Hn Hin; [contradiction | ].
  inversion Hn as [|? ? Ha Hl]; subst.
  destruct (String.eqb_spec (Release.version a) v) as [E|E]; simpl.
  - subst v. fold (without_version (Release.version a) l).
    now rewrite (without_absent _ l Ha).
  - f_equal. apply IH; [exact Hl | ]. destruct Hin as [Hin|Hin]; [contradiction | exact Hin].
Qed.

Lemma without_in (v : string) (l : list Release.t) (r : Release.t) :
  In r (without_version v l) <-> In r l /\ Release.version r <> v.
Proof.
  unfold without_version. rewrite filter_In, negb_true_iff, String.eqb_neq. tauto.
Qed.

(** X4: a release update loses and changes no record of another
    version: the new list holds the old records of the other versions
    and the new record, and nothing else.  It is one longer than the old
    list when the version is new, and as long when the version had its
    one record before. *)
Theorem release_update_keeps_other_records (file : option Registry) (v l t : string) :
  v <> "latest" ->
  let old := versions (load_versions file) in
  let new := versions (fst (update_versions_file file v l t)) in
  Permutation new (without_version v old ++ [version_entry v l t])%list
  /\ (forall r, Release.version r <> v -> (In r new <-> In r old))
  /\ (~ In v (map Release.version old) -> List.length new = S (List.length old))
  /\ (NoDup (map Release.version old) -> In v (map Release.version old) ->
      List.length new = List.length old).
Proof.
  intros Hv old new.
  assert (P : Permutation new (without_version v old ++ [version_entry v l t])%list)
    by now apply update_release_perm.
  assert (L : List.length new = S (List.length (without_version v old))).
  { rewrite (Permutation_length P), length_app. simpl. lia. }
  split; [exact P | split; [ | split]].
  - intros r Hr. split; intros H.
    + apply (Permutation_in _ P) in H. apply in_app_or in H. destruct H as [H|[H|[]]].
      * now apply without_in in H.
      * subst r. simpl in Hr. congruence.
    + apply (Permutation_in _ (Permutation_sym P)). apply in_or_app. left.
      now apply without_in.
  - intros Habs. rewrite L. now rewrite (without_absent v old Habs).
  - intros Hn Hin. rewrite L. now apply without_present_length.
Qed.

Lemma release_update_keeps_other_records_witness :
  List.length
    (versions (fst (update_versions_file
                      (Some (fst (update_versions_file None "v0.1.9" "old" "t1")))
                      "v0.1.10" "new" "t2")))
  = 2%nat.
Proof.
  apply (proj1 (proj2 (proj2 (release_update_keeps_other_records
                                (Some (fst (update_versions_file None "v0.1.9" "old" "t1")))
                                "v0.1.10" "new" "t2" ltac:(discriminate))))).
  vm_compute. intros [H|[]]. discriminate H.
Defined.

(** X5: after a release update [stable] is the deployed version exactly
    when its key is larger than the key of every record of another
    version; a record with the same or a larger key keeps the first
    place, so deploying an older or an unparseable version does not move
    [stable] to it. *)
Theorem stable_moves_to_new_version_iff (file : option Registry) (v l t : string) :
  v <> "latest" ->
  stable (fst (update_versions_file file v l t)) = Some v
  <-> (forall r,
          In r (versions (load_versions file)) -> Release.version r <> v ->
          PyTuple.lt (sort_key r) (parse_version v) = true).
Proof.
  intros Hv. simpl. set (data := load_versions file).
  set (e := version_entry v l t).
  pose proof (update_release_perm data v l t Hv) as P.
  pose proof (update_release_sorted data v l t Hv) as S.
  pose proof (release_class data v l t Hv (sort_key e)) as C.
  rewrite (release_stable data v l t Hv).
  destruct (versions (update_data data v l t)) as [|first rest] eqn:E.
  { apply Permutation_nil in P. destruct (without_version v (versions data)); discriminate. }
  assert (Hfirst : In first (without_version v (versions data)) \/ first = e).
  { assert (H : In first (first :: rest)) by now left.
    apply (Permutation_in _ P) in H. apply in_app_or in H.
    destruct H as [H|[H|[]]]; [now left | now right]. }
  assert (He : In e (first :: rest)).
  { apply (Permutation_in _ (Permutation_sym P)). apply in_or_app. right. now left. }
  split.
  - intros Hst r Hr Hrv. injection Hst as Hst.
    assert (Ef : first = e).
    { destruct Hfirst as [H|H]; [ | exact H]. apply without_in in H. tauto. }
    subst first.
    assert (Hk : In r (without_version v (versions data))) by now apply without_in.
    assert (Hin : In r (e :: rest)).
    { apply (Permutation_in _ (Permutation_sym P)). apply in_or_app. now left. }
    destruct (PyTuple.lt (sort_key r) (parse_version v)) eqn:Lt; [reflexivity | exfalso].
    assert (K : sort_key e = sort_key r).
    { apply (key_ge_antisym sort_key).
      - now apply (sorted_head_ge sort_key e rest).
      - unfold key_ge. now apply TupleFacts.not_lt_le. }
    simpl filter in C. rewrite (key_is_refl sort_key e) in C.
    destruct (filter (key_is sort_key (sort_key e)) (without_version v (versions data)))
      as [|x xs] eqn:F.
    + assert (Hx : In r []).
      { rewrite <- F. apply filter_In. split; [exact Hk | ].
        rewrite K. apply key_is_refl. }
      contradiction.
    + simpl in C. injection C as C _.
      assert (Hx : In x (without_version v (versions data))).
      { apply (filter_head_in _ _ _ _ F). }
      apply without_in in Hx. destruct Hx as [_ Hx]. apply Hx. now rewrite <- C.
  - intros Hall. f_equal.
    destruct Hfirst as [H|H]; [exfalso | now rewrite H].
    apply without_in in H. destruct H as [Hin Hne].
    pose proof (Hall first Hin Hne) as Lt.
    pose proof (sorted_head_ge sort_key first rest e S He) as G.
    unfold key_ge in G. apply TupleFacts.le_not_lt in G.
    change (sort_key e) with (parse_version v) in G. congruence.
Qed.

Lemma stable_moves_to_new_version_iff_witness :
  stable (fst (update_versions_file
                 (Some (fst (update_versions_file None "v0.1.9" "old" "t1")))
                 "v0.1.10" "new" "t2"))
  = Some "v0.1.10".
Proof.
  apply (proj2 (stable_moves_to_new_version_iff
                  (Some (fst (update_versions_file None "v0.1.9" "old" "t1")))
                  "v0.1.10" "new" "t2" ltac:(discriminate))).
  intros r H _. vm_compute in H. destruct H as [<-|[]]. reflexivity.
Defined.

Lemma load_written_by_updater (file : option Registry) :
  on_file written_by_updater file -> written_by_updater (load_versions file).
Proof.
  destruct file; simpl; [trivial | intros _].
  repeat split; constructor.
Qed.

(** X7: the shape of the documents the updater writes is kept by every
    update and so holds after any runs that start without a file:
    [latest] keeps the path [/latest/] and the version [main], the path
    of every record is its version between slashes, no record has the
    version [latest], and the records are in descending order. *)
Theorem updater_documents_well_formed :
  (forall file v l t,
      on_file written_by_updater file ->
      written_by_updater (fst (update_versions_file file v l t)))
  /\ (forall runs, on_file written_by_updater (run_all None runs)).
Proof.
  assert (Hstep : forall file v l t,
             on_file written_by_updater file ->
             written_by_updater (fst (update_versions_file file v l t))).
  { intros file v l t H. simpl. apply load_written_by_updater in H.
    set (data := load_versions file) in *.
    destruct H as [Hp [Hm [Hr Hs]]].
    destruct (String.eqb_spec v "latest") as [->|Hv].
    - repeat split; assumption.
    - unfold written_by_updater. rewrite (release_latest data v l t Hv).
      repeat split; [exact Hp | exact Hm | | now apply update_release_sorted].
      apply Forall_forall. intros r Hin.
      apply (Permutation_in _ (update_release_perm data v l t Hv)) in Hin.
      apply in_app_or in Hin. destruct Hin as [Hin|[<-|[]]].
      + apply without_in in Hin. rewrite Forall_forall in Hr. now apply Hr.
      + split; [reflexivity | exact Hv]. }
  split; [exact Hstep | ].
  intros runs. now apply run_all_invariant.
Qed.

Lemma updater_documents_well_formed_witness :
  written_by_updater (fst (update_versions_file None "v0.1.9" "v0.1.9" "t1")).
Proof. apply (proj1 updater_documents_well_formed). exact I. Defined.

(** * Further properties of the sitemap *)

Module OrderFacts.

Lemma str_compare_refl (a : string) : String.compare a a = Eq.
Proof.
  pose proof (String.compare_antisym a a) as H.
  destruct (String.compare a a); simpl in H; congruence.
Qed.

Lemma str_not_gt_trans (a : string) :
  forall b c,
    String.compare a b <> Gt -> String.compare b c <> Gt -> String.compare a c <> Gt.
Proof.
  induction a as [|x a IH]; intros [|y b] [|z c]; simpl; try congruence.
  unfold Ascii.compare.
  destruct (N.compare_spec (N_of_ascii x) (N_of_ascii y)) as [E1|L1|L1];
    destruct (N.compare_spec (N_of_ascii y) (N_of_ascii z)) as [E2|L2|L2];
    destruct (N.compare_spec (N_of_ascii x) (N_of_ascii z)) as [E3|L3|L3];
    try lia; try congruence; eauto.
Qed.

Lemma not_lt_iff (a b : string) : PyStr.lt a b = false <-> String.compare b a <> Gt.
Proof.
  unfold PyStr.lt, String.ltb. rewrite (String.compare_antisym b a).
  destruct (String.compare a b); simpl; split; congruence.
Qed.

Lemma lt_irrefl (a : string) : PyStr.lt a a = false.
Proof. unfold PyStr.lt, String.ltb. now rewrite str_compare_refl. Qed.

Lemma lt_asym (a b : string) : PyStr.lt a b = true -> PyStr.lt b a = false.
Proof.
  unfold PyStr.lt, String.ltb. rewrite (String.compare_antisym b a).
  destruct (String.compare a b); simpl; congruence.
Qed.

Lemma not_lt_trans (a b c : string) :
  PyStr.lt b a = false -> PyStr.lt c b = false -> PyStr.lt c a = false.
Proof. rewrite !not_lt_iff. apply str_not_gt_trans. Qed.

Lemma not_lt_antisym (a b : string) :
  PyStr.lt a b = false -> PyStr.lt b a = false -> a = b.
Proof.
  unfold PyStr.lt, String.ltb. rewrite (String.compare_antisym b a).
  intros H1 H2. apply String.compare_eq_iff.
  destruct (String.compare a b); simpl in *; congruence.
Qed.

Lemma insert_sorted_ascending (x : string) (l : list string) :
  ascending l -> ascending (insert_sorted x l).
Proof.
  unfold ascending. induction l as [|y r IH]; simpl; intros Hs.
  - repeat constructor.
  - apply StronglySorted_inv in Hs. destruct Hs as [Hr Hy].
    destruct (PyStr.lt y x) eqn:E.
    + constructor; [now apply IH | ].
      apply Forall_forall. intros z Hz.
      apply (Permutation_in _ (WalkFacts.insert_sorted_perm x r)) in Hz.
      destruct Hz as [<-|Hz]; [now apply lt_asym | ].
      rewrite Forall_forall in Hy. now apply Hy.
    + constructor; [now constructor | ].
      constructor; [exact E | ].
      eapply Forall_impl; [ | exact Hy].
      intros z Hz. simpl in Hz. now apply (not_lt_trans x y z).
Qed.

Lemma sorted_ascending (l : list string) : ascending (sorted l).
Proof.
  induction l as [|x r IH]; simpl; [constructor | ].
  now apply insert_sorted_ascending.
Qed.

Lemma ascending_head (x : string) (l : list string) (y : string) :
  ascending (x :: l) -> In y (x :: l) -> PyStr.lt y x = false.
Proof.
  intros Hs [<-|Hy]; [apply lt_irrefl | ].
  apply StronglySorted_inv in Hs. destruct Hs as [_ Hx].
  rewrite Forall_forall in Hx. now apply Hx.
Qed.

(** Two ascending lists with the same members are the same list. *)
Lemma ascending_unique (l1 : list string) :
  forall l2, ascending l1 -> ascending l2 -> Permutation l1 l2 -> l1 = l2.
Proof.
  induction l1 as [|x r1 IH]; intros l2 S1 S2 P.
  - apply Permutation_nil in P. now subst.
  - destruct l2 as [|y r2]; [apply Permutation_sym, Permutation_nil in P; discriminate | ].
    assert (E : x = y).
    { apply not_lt_antisym.
      - apply (ascending_head y r2 x S2), (Permutation_in _ P). now left.
      - apply (ascending_head x r1 y S1), (Permutation_in _ (Permutation_sym P)). now left. }
    subst y. f_equal.
    apply StronglySorted_inv in S1, S2.
    apply IH; [tauto | tauto | now apply Permutation_cons_inv in P].
Qed.

End OrderFacts.

(** X8: the sitemap does not depend on the order in which the walk
    finds the files: lists of URLs with the same members give the same
    document. *)
Theorem sitemap_independent_of_scan_order (base_url today : string) (urls1 urls2 : list string) :
  Permutation urls1 urls2 ->
  sorted urls1 = sorted urls2
  /\ sitemap_content base_url today urls1 = sitemap_content base_url today urls2.
Proof.
  intros P.
  assert (E : sorted urls1 = sorted urls2).
  { apply OrderFacts.ascending_unique; try apply OrderFacts.sorted_ascending.
    eapply perm_trans; [apply WalkFacts.sorted_perm | ].
    eapply perm_trans; [exact P | apply Permutation_sym, WalkFacts.sorted_perm]. }
  split; [exact E | ]. unfold sitemap_content. now rewrite E.
Qed.

Lemma sitemap_independent_of_scan_order_witness :
  sitemap_content "https://higher-kinded-j.github.io/" "2026-01-05"
    ["https://higher-kinded-j.github.io/sub/page.html";
     "https://higher-kinded-j.github.io/index.html"]
  = sitemap_content "https://higher-kinded-j.github.io/" "2026-01-05"
      ["https://higher-kinded-j.github.io/index.html";
       "https://higher-kinded-j.github.io/sub/page.html"].
Proof.
  apply sitemap_independent_of_scan_order. apply perm_swap.
Defined.

Lemma NoDup_map_in {A B : Type} (g : A -> B) (xs : list A) :
  (forall a b, In a xs -> In b xs -> g a = g b -> a = b) ->
  NoDup xs -> NoDup (map g xs).
Proof.
  intros Hinj Hn. induction Hn as [|x xs Hx _ IH]; simpl; constructor.
  - intros H. apply in_map_iff in H. destruct H as [y [E Hy]].
    apply Hx. rewrite <- (Hinj y x); [exact Hy | now right | now left | exact E].
  - apply IH. intros a b Ha Hb. apply Hinj; now right.
Qed.

(** X9: the entries of the sitemap are in ascending order of their
    URLs, and for a tree as a file system has it no URL occurs twice. *)
Theorem sitemap_entries_ascending (base_url : string) (start_dir : tree) :
  let urls := collect_urls (normalize_base_url base_url) start_dir in
  ascending (sorted urls)
  /\ (well_formed start_dir -> NoDup (sorted urls)).
Proof.
  intros urls. split; [apply OrderFacts.sorted_ascending | ].
  intros Hwf.
  apply (Permutation_NoDup (Permutation_sym (WalkFacts.sorted_perm urls))).
  unfold urls. rewrite collect_urls_files.
  apply NoDup_map_in.
  - intros [r1 f1] [r2 f2] H1 H2 E.
    apply filter_In in H1, H2. destruct H1 as [H1 _], H2 as [H2 _].
    exact (WalkFacts.file_url_injective _ start_dir r1 r2 f1 f2 Hwf H1 H2 E).
  - apply NoDup_filter. now apply WalkFacts.tree_files_nodup.
Qed.

Lemma sitemap_entries_ascending_witness :
  NoDup (sorted (collect_urls (normalize_base_url "https://higher-kinded-j.github.io")
                   (Dir "book" ["index.html"; "404.html"] [Dir "sub" ["page.html"] []]))).
Proof.
  apply (proj2 (sitemap_entries_ascending "https://higher-kinded-j.github.io"
                  (Dir "book" ["index.html"; "404.html"] [Dir "sub" ["page.html"] []]))).
  simpl. repeat split; repeat constructor; simpl; intuition discriminate.
Defined.

Module EscapeFacts.

Lemma replace_removes (old : ascii) (new s : string) :
  free_of old new -> free_of old (PyStr.replace old new s).
Proof.
  unfold free_of. intros Hn. induction s as [|a r IH]; [reflexivity | ].
  simpl. destruct (Ascii.eqb a old) eqn:E.
  - now rewrite StrFacts.char_in_app, Hn, IH.
  - simpl. now rewrite Ascii.eqb_sym, E, IH.
Qed.

Lemma replace_keeps_free (c old : ascii) (new s : string) :
  free_of c new -> free_of c s -> free_of c (PyStr.replace old new s).
Proof.
  unfold free_of. intros Hn. induction s as [|a r IH]; [reflexivity | ].
  simpl. intros H. apply orb_false_iff in H. destruct H as [Ha Hr].
  destruct (Ascii.eqb a old).
  - now rewrite StrFacts.char_in_app, Hn, IH.
  - simpl. now rewrite Ha, IH.
Qed.

Lemma replace_absent (old : ascii) (new s : string) :
  free_of old s -> PyStr.replace old new s = s.
Proof.
  unfold free_of. induction s as [|a r IH]; [reflexivity | ].
  simpl. intros H. apply orb_false_iff in H. destruct H as [Ha Hr].
  rewrite Ascii.eqb_sym, Ha. now rewrite IH.
Qed.

Lemma none_of_free (chars s : string) (c : ascii) :
  none_of chars s = true -> PyStr.char_in c chars = true -> free_of c s.
Proof.
  unfold free_of. induction s as [|a r IH]; [reflexivity | ].
  simpl. intros H Hc. apply andb_true_iff in H. destruct H as [Ha Hr].
  rewrite (IH Hr Hc), orb_false_r.
  destruct (Ascii.eqb_spec c a) as [->|_]; [ | reflexivity].
  rewrite Hc in Ha. discriminate.
Qed.

End EscapeFacts.

(** X10: the escaped text of a URL holds none of the characters [<],
    [>], double quote and apostrophe, and a URL that holds none of them
    and no [&] is written as it is. *)
Theorem html_escape_output (s : string) :
  free_of "<" (html_escape s)
  /\ free_of ">" (html_escape s)
  /\ free_of (ascii_of_nat 34) (html_escape s)
  /\ free_of "'" (html_escape s)
  /\ (none_of markup_chars s = true -> html_escape s = s).
Proof.
  unfold html_escape.
  repeat split.
  - do 3 (apply EscapeFacts.replace_keeps_free; [reflexivity | ]).
    now apply EscapeFacts.replace_removes.
  - do 2 (apply EscapeFacts.replace_keeps_free; [reflexivity | ]).
    now apply EscapeFacts.replace_removes.
  - apply EscapeFacts.replace_keeps_free; [reflexivity | ].
    now apply EscapeFacts.replace_removes.
  - now apply EscapeFacts.replace_removes.
  - intros H.
    rewrite (EscapeFacts.replace_absent "&" _ s)
      by (now apply (EscapeFacts.none_of_free markup_chars)).
    rewrite (EscapeFacts.replace_absent "<" _ s)
      by (now apply (EscapeFacts.none_of_free markup_chars)).
    rewrite (EscapeFacts.replace_absent ">" _ s)
      by (now apply (EscapeFacts.none_of_free markup_chars)).
    rewrite (EscapeFacts.replace_absent (ascii_of_nat 34) _ s)
      by (now apply (EscapeFacts.none_of_free markup_chars)).
    now apply EscapeFacts.replace_absent, (EscapeFacts.none_of_free markup_chars).
Qed.

Lemma html_escape_output_witness :
  html_escape "https://higher-kinded-j.github.io/sub/page.html"
  = "https://higher-kinded-j.github.io/sub/page.html".
Proof.
  apply (html_escape_output "https://higher-kinded-j.github.io/sub/page.html").
  reflexivity.
Defined.

(** X11: the URL of a file of a tree as a file system has it is the base
    URL and a path that, split at the slashes, gives back the
    directories that lead to the file and its name. *)
Theorem entry_url_decodes_to_path (base_url : string) (start_dir : tree)
    (root : list string) (file : string) :
  well_formed start_dir ->
  In (root, file) (tree_files [] start_dir) ->
  exists rel,
    file_url base_url root file = base_url ++ rel
    /\ PyStr.split "/" rel = (root ++ [file])%list.
Proof.
  intros Hwf Hin. exists (relpath root file).
  split; [apply file_url_relpath | ].
  destruct (WalkFacts.tree_files_free start_dir Hwf [] root file (Forall_nil _) Hin)
    as [Fr Ff].
  unfold relpath, os_path_sep. apply SplitJoin.split_join.
  - destruct root; discriminate.
  - apply Forall_app. split; [exact Fr | now constructor].
Qed.

Lemma entry_url_decodes_to_path_witness :
  exists rel,
    file_url "https://higher-kinded-j.github.io/" ["sub"] "page.html"
    = "https://higher-kinded-j.github.io/" ++ rel
    /\ PyStr.split "/" rel = ["sub"; "page.html"].
Proof.
  apply (entry_url_decodes_to_path "https://higher-kinded-j.github.io/"
           (Dir "book" ["index.html"; "404.html"] [Dir "sub" ["page.html"] []])).
  - simpl. repeat split; repeat constructor; simpl; intuition discriminate.
  - vm_compute. right. right. left. reflexivity.
Defined.



(** X6: only the leading [v]s, which are dropped, and the first three
    components count: two version strings whose first three components
    are the same have the same sort key, whatever follows and however
    many [v]s lead. *)
Theorem parse_version_first_three (n1 n2 : nat) (parts1 parts2 : list string) (s1 s2 : string) :
  version_shape n1 parts1 s1 -> version_shape n2 parts2 s2 ->
  firstn 3 parts1 = firstn 3 parts2 ->
  parse_version s1 = parse_version s2.
Proof.
  intros H1 H2 E. unfold parse_version.
  rewrite (ParseFacts.parse_try_shape n1 parts1 s1 H1).
  rewrite (ParseFacts.parse_try_shape n2 parts2 s2 H2).
  now rewrite E.
Qed.

Lemma parse_version_first_three_witness :
  parse_version "v1.2.3.4" = parse_version "vv1.2.3".
Proof.
  apply (parse_version_first_three 1 2 ["1"; "2"; "3"; "4"] ["1"; "2"; "3"]).
  - repeat split; try reflexivity; [discriminate | repeat constructor].
  - repeat split; try reflexivity; [discriminate | repeat constructor].
  - reflexivity.
Defined.


(** X13: when the book directory is there, the only directory that the
    run makes sure of is the book directory itself, named without the
    slashes that end it (as given when it is made of slashes only); for
    a name that does not end in a slash it is that name. *)
Theorem sitemap_directory_is_book_directory (os : OS) :
  let dir := environ_get os "MDBOOK_OUTPUT_DIR" "hkj-book/book" in
  isdir os dir = true ->
  made_dirs (fst (main os))
  = [match PyStr.rstrip "/" dir with
     | EmptyString => dir
     | stripped => stripped
     end]
  /\ (PyStr.endswith dir "/" = false -> made_dirs (fst (main os)) = [dir]).
Proof.
  intros dir H.
  assert (M : made_dirs (fst (main os)) = [dirname (path_join dir "sitemap.xml")]).
  { unfold main. cbv zeta. fold dir. rewrite H.
    rewrite MainFacts.generate_sitemap_named
      by now apply PathFacts.dirname_sitemap_named, (PathFacts.isdir_named os).
    reflexivity. }
  rewrite M, PathFacts.dirname_sitemap. split; [reflexivity | ].
  intros E. rewrite (PathFacts.rstrip_id dir E).
  destruct dir; reflexivity.
Qed.

Lemma sitemap_directory_is_book_directory_witness :
  made_dirs (fst (main (MkOS (fun _ => None) (fun p => negb (String.eqb p "")) eq_refl
                         (fun _ => true)
                         (fun _ => ["book"]) "/home/runner/work"
                         (fun p => "/home/runner/work/" ++ p)
                         (fun _ => Dir "book" ["index.html"] []) "2026-01-05")))
  = ["hkj-book/book"].
Proof.
  apply (sitemap_directory_is_book_directory
           (MkOS (fun _ => None) (fun p => negb (String.eqb p "")) eq_refl
              (fun _ => true)
              (fun _ => ["book"]) "/home/runner/work"
              (fun p => "/home/runner/work/" ++ p)
              (fun _ => Dir "book" ["index.html"] []) "2026-01-05")).
  - reflexivity.
  - reflexivity.
Defined.

Lemma normalize_base_url_slash (base_url : string) :
  PyStr.endswith (normalize_base_url base_url) "/" = true.
Proof.
  unfold normalize_base_url.
  destruct (PyStr.endswith base_url "/") eqn:E; simpl; [exact E | ].
  apply StrFacts.endswith_app.
Qed.

Module SegmentFacts.

(** A part of a joined path that is not the last one is followed by a
    slash and stands at the start or behind a slash. *)
Lemma join_middle (l1 : list string) (x : string) (l2 : list string) :
  l2 <> [] ->
  exists p q,
    PyStr.join "/" (l1 ++ x :: l2)%list = p ++ x ++ "/" ++ q
    /\ (p = "" \/ PyStr.endswith p "/" = true).
Proof.
  intros Hne. induction l1 as [|a l1 [p [q [E Hp]]]].
  - destruct l2 as [|y l2]; [contradiction | ].
    exists "", (PyStr.join "/" (y :: l2)). split; [reflexivity | now left].
  - exists (a ++ "/" ++ p), q. split.
    + change ((a :: l1) ++ x :: l2)%list with (a :: (l1 ++ x :: l2))%list.
      destruct (l1 ++ x :: l2)%list as [|z r] eqn:F; [destruct l1; discriminate | ].
      rewrite SplitJoin.join_cons, E. now rewrite !StrFacts.app_assoc.
    + right. destruct Hp as [->|Hp].
      * rewrite StrFacts.app_nil_r. apply StrFacts.endswith_app.
      * rewrite <- StrFacts.app_assoc. now apply StrFacts.endswith_app_r.
Qed.

(** The URL of a file below a directory [d] holds [/d/]. *)
Lemma url_contains_directory (base_url : string) (root : list string) (file d : string) :
  PyStr.endswith base_url "/" = true -> In d root ->
  PyStr.contains (file_url base_url root file) ("/" ++ d ++ "/") = true.
Proof.
  intros Hb Hd. rewrite file_url_relpath. unfold relpath, os_path_sep.
  apply in_split in Hd. destruct Hd as [l1 [l2 ->]].
  rewrite <- app_assoc. change ((d :: l2) ++ [file])%list with (d :: (l2 ++ [file]))%list.
  destruct (join_middle l1 d (l2 ++ [file])%list) as [p [q [E Hp]]];
    [destruct l2; discriminate | ].
  change (String "/"%char "") with "/". rewrite E.
  assert (Hs : PyStr.endswith (base_url ++ p) "/" = true).
  { destruct Hp as [->|Hp]; [now rewrite StrFacts.app_nil_r | ].
    now apply StrFacts.endswith_app_r. }
  apply StrFacts.endswith_inv in Hs. destruct Hs as [z Hz].
  rewrite <- StrFacts.app_assoc, Hz.
  replace ((z ++ "/") ++ d ++ "/" ++ q) with (z ++ ("/" ++ d ++ "/") ++ q)
    by (now rewrite !StrFacts.app_assoc).
  apply PriorityFacts.contains_app.
Qed.

End SegmentFacts.

(** X14: a page in a directory named [effect] or [optics], at any
    depth, never gets a priority below 0.7, and a page in a directory
    named [tutorials] or [hkts] never gets the default 0.5. *)
Theorem directory_pages_priority (base_url : string) (root : list string) (file : string) :
  let base := normalize_base_url base_url in
  let p := priority (file_url base root file) base in
  (In "effect" root \/ In "optics" root ->
   p = "1.0" \/ p = "0.9" \/ p = "0.8" \/ p = "0.7")
  /\ (In "tutorials" root \/ In "hkts" root -> p <> "0.5").
Proof.
  intros base p.
  assert (Hb : PyStr.endswith base "/" = true)
    by apply (normalize_base_url_slash base_url).
  split.
  - intros H.
    assert (C : PyStr.contains (file_url base root file) "/effect/"
                || PyStr.contains (file_url base root file) "/optics/" = true).
    { destruct H as [H|H].
      - now rewrite (SegmentFacts.url_contains_directory base root file "effect" Hb H
                 : PyStr.contains (file_url base root file) "/effect/" = true).
      - rewrite (SegmentFacts.url_contains_directory base root file "optics" Hb H
                 : PyStr.contains (file_url base root file) "/optics/" = true).
        apply orb_true_r. }
    unfold p, priority. rewrite C.
    destruct (_ || _ || _); [now left | ].
    destruct (any_in _ key_pages); [right; now left | ].
    destruct (any_in _ core_pages); [right; right; now left | ].
    right. right. right. reflexivity.
  - intros H.
    assert (C : PyStr.contains (file_url base root file) "/tutorials/"
                || PyStr.contains (file_url base root file) "/hkts/" = true).
    { destruct H as [H|H].
      - now rewrite (SegmentFacts.url_contains_directory base root file "tutorials" Hb H
                 : PyStr.contains (file_url base root file) "/tutorials/" = true).
      - rewrite (SegmentFacts.url_contains_directory base root file "hkts" Hb H
                 : PyStr.contains (file_url base root file) "/hkts/" = true).
        apply orb_true_r. }
    unfold p, priority. rewrite C.
    destruct (_ || _ || _); [discriminate | ].
    destruct (any_in _ key_pages); [discriminate | ].
    destruct (any_in _ core_pages); [discriminate | ].
    destruct (PyStr.contains _ "/effect/" || _); discriminate.
Qed.

Lemma directory_pages_priority_witness :
  priority (file_url (normalize_base_url "https://higher-kinded-j.github.io")
              ["tutorials"; "basics"] "first_steps.html")
    (normalize_base_url "https://higher-kinded-j.github.io")
  <> "0.5".
Proof.
  apply (directory_pages_priority "https://higher-kinded-j.github.io"
           ["tutorials"; "basics"] "first_steps.html").
  left. left. reflexivity.
Defined.
